(** * A shallow embedding of photo_watermark.py

    Python [str] values are lists of ASCII characters; Python [int]s are [Z]
    (or [nat] where the source only produces non-negative values).  The
    effects of the tool (the file system, standard output, the drawing calls
    on the text layer and the files saved) are threaded through a small
    state-and-exception monad.  Image decoding, font rasterisation and alpha
    compositing are external collaborators: an image is its size and its
    metadata, and the text bounding box is a parameter. *)

From Stdlib Require Import List Bool Arith ZArith Lia Ascii String Permutation QArith.
Import ListNotations.
Open Scope nat_scope.
Open Scope list_scope.
#[local] Set Warnings "-abstract-large-number".

(* ------------------------------------------------------------------ *)
(** ** Python strings *)

Definition pystr := list ascii.

Definition py (s : string) : pystr := list_ascii_of_string s.
Arguments py s%_string.

Definition ascii_eqb (a b : ascii) : bool := if ascii_dec a b then true else false.

Fixpoint str_eqb (s t : pystr) : bool :=
  match s, t with
  | [], [] => true
  | a :: s', b :: t' => ascii_eqb a b && str_eqb s' t'
  | _, _ => false
  end.

(** [str.lower] on the 8-bit (Latin-1) range: [A-Z] and the capitals
    0xc0-0xde other than 0xd7 move up by 32, every other character is its
    own lower case. *)
Definition char_lower (c : ascii) : ascii :=
  let n := nat_of_ascii c in
  if ((65 <=? n) && (n <=? 90)) || ((192 <=? n) && (n <=? 222) && negb (n =? 215))
  then ascii_of_nat (n + 32) else c.
Definition str_lower (s : pystr) : pystr := map char_lower s.

(** [str.upper] on ASCII strings: [a-z] move down by 32. Past 0x7f
    Python's [upper] changes more characters (and may leave the 8-bit
    range); this one is applied to ASCII strings only: the extension
    literals of [supported_formats] and ASCII colour strings. *)
Definition char_upper (c : ascii) : ascii :=
  let n := nat_of_ascii c in
  if (97 <=? n) && (n <=? 122) then ascii_of_nat (n - 32) else c.
Definition str_upper (s : pystr) : pystr := map char_upper s.

(** [str.startswith] and [str.endswith]. *)
Fixpoint startswith (s p : pystr) : bool :=
  match p, s with
  | [], _ => true
  | c :: p', d :: s' => ascii_eqb c d && startswith s' p'
  | _ :: _, [] => false
  end.
Definition endswith (s p : pystr) : bool := startswith (rev s) (rev p).

(** Whitespace as Python's [str.isspace] and the [\s] of [re] have it on
    the 8-bit range: tab to carriage return, the four separators
    0x1c-0x1f, space, NEL 0x85 and no-break space 0xa0. *)
Definition is_space (c : ascii) : bool :=
  let n := nat_of_ascii c in
  ((9 <=? n) && (n <=? 13)) || ((28 <=? n) && (n <=? 32)) || (n =? 133) || (n =? 160).

(** The whitespace [int()] skips around a number: the C-locale blanks
    (tab to carriage return, space) and the non-ASCII [str.isspace]
    characters NEL 0x85 and 0xa0, which it turns into spaces first; the
    ASCII separators 0x1c-0x1f are not skipped. *)
Definition int_space (c : ascii) : bool :=
  let n := nat_of_ascii c in
  ((9 <=? n) && (n <=? 13)) || (n =? 32) || (n =? 133) || (n =? 160).

(** Decimal digit value of a character ([\d] on the ASCII range). *)
Definition dv (c : ascii) : option nat :=
  let n := nat_of_ascii c in
  if (48 <=? n) && (n <=? 57) then Some (n - 48) else None.

Definition digit_char (k : nat) : ascii := ascii_of_nat (48 + k).

(* ------------------------------------------------------------------ *)
(** ** Python values, exceptions and output *)

(** The values an EXIF dictionary can hold: strings for ASCII-typed tags,
    [bytes] for UNDEFINED-typed tags, integers for numeric tags. *)
Inductive pyval :=
| VStr (s : pystr)
| VBytes (b : pystr)
| VInt (z : Z).

Inductive exn :=
| ValueError
| TypeError
| AttributeError
| OSError
| FileExistsError.

(* ------------------------------------------------------------------ *)
(** ** [datetime.strptime(value, '%Y:%m:%d %H:%M:%S')]

    CPython's [_strptime] turns the format into the regular expression
<<
(?P<Y>\d\d\d\d):(?P<m>1[0-2]|0[1-9]|[1-9]):
(?P<d>3[0-1]|[1-2]\d|0[1-9]|[1-9]| [1-9])\s+
(?P<H>2[0-3]|[0-1]\d|\d):(?P<M>[0-5]\d|\d):(?P<S>6[0-1]|[0-5]\d|\d)
>>
    and calls [re.match] on the value: the first successful path of the
    backtracking search is taken, and the call fails with [ValueError] when
    no path matches or when characters remain after it ("unconverted data
    remains").  The parsed fields then go through the [datetime]
    constructor, which raises [ValueError] on an invalid date or time.
    A regular-expression piece is modelled as the list, in backtracking
    priority order, of (group value, remaining input) pairs. *)

Definition digit_in (lo hi : nat) (c : ascii) : option nat :=
  match dv c with
  | Some d => if (lo <=? d) && (d <=? hi) then Some d else None
  | None => None
  end.

(** The literal space of the alternative [ \[1-9\]]; [int(' 5')] is 5. *)
Definition sp (c : ascii) : option nat := if ascii_eqb c " " then Some 0 else None.

Definition alt1 (p : ascii -> option nat) (s : pystr) : list (nat * pystr) :=
  match s with
  | c :: r => match p c with Some a => [(a, r)] | None => [] end
  | [] => []
  end.

Definition alt2 (p1 p2 : ascii -> option nat) (s : pystr) : list (nat * pystr) :=
  match s with
  | c1 :: c2 :: r =>
      match p1 c1, p2 c2 with
      | Some a, Some b => [(10 * a + b, r)]
      | _, _ => []
      end
  | _ => []
  end.

Definition re_Y (s : pystr) : list (nat * pystr) :=
  match s with
  | a :: b :: c :: d :: r =>
      match dv a, dv b, dv c, dv d with
      | Some a', Some b', Some c', Some d' => [(1000 * a' + 100 * b' + 10 * c' + d', r)]
      | _, _, _, _ => []
      end
  | _ => []
  end.

Definition re_m (s : pystr) : list (nat * pystr) :=
  alt2 (digit_in 1 1) (digit_in 0 2) s ++ alt2 (digit_in 0 0) (digit_in 1 9) s
  ++ alt1 (digit_in 1 9) s.

Definition re_d (s : pystr) : list (nat * pystr) :=
  alt2 (digit_in 3 3) (digit_in 0 1) s ++ alt2 (digit_in 1 2) (digit_in 0 9) s
  ++ alt2 (digit_in 0 0) (digit_in 1 9) s ++ alt1 (digit_in 1 9) s
  ++ alt2 sp (digit_in 1 9) s.

Definition re_H (s : pystr) : list (nat * pystr) :=
  alt2 (digit_in 2 2) (digit_in 0 3) s ++ alt2 (digit_in 0 1) (digit_in 0 9) s
  ++ alt1 (digit_in 0 9) s.

Definition re_M (s : pystr) : list (nat * pystr) :=
  alt2 (digit_in 0 5) (digit_in 0 9) s ++ alt1 (digit_in 0 9) s.

Definition re_S (s : pystr) : list (nat * pystr) :=
  alt2 (digit_in 6 6) (digit_in 0 1) s ++ alt2 (digit_in 0 5) (digit_in 0 9) s
  ++ alt1 (digit_in 0 9) s.

Definition re_lit (c : ascii) (s : pystr) : list pystr :=
  match s with
  | d :: r => if ascii_eqb c d then [r] else []
  | [] => []
  end.

Fixpoint space_run (s : pystr) : nat :=
  match s with
  | c :: r => if is_space c then S (space_run r) else 0
  | [] => 0
  end.

(** [\s+], greedy: the longest run first, then shorter ones. *)
Definition re_ws (s : pystr) : list pystr :=
  map (fun j => skipn j s) (rev (seq 1 (space_run s))).

Record timestamp := mkts { ts_Y : nat; ts_m : nat; ts_d : nat; ts_H : nat; ts_M : nat; ts_S : nat }.

Definition re_timestamp (s : pystr) : list (timestamp * pystr) :=
  flat_map (fun '(y, r1) =>
  flat_map (fun r2 =>
  flat_map (fun '(mo, r3) =>
  flat_map (fun r4 =>
  flat_map (fun '(d, r5) =>
  flat_map (fun r6 =>
  flat_map (fun '(h, r7) =>
  flat_map (fun r8 =>
  flat_map (fun '(mi, r9) =>
  flat_map (fun r10 =>
  map (fun '(se, r11) => (mkts y mo d h mi se, r11))
    (re_S r10)) (re_lit ":" r9)) (re_M r8)) (re_lit ":" r7)) (re_H r6))
    (re_ws r5)) (re_d r4)) (re_lit ":" r3)) (re_m r2)) (re_lit ":" r1)) (re_Y s).

Definition is_leap (y : nat) : bool :=
  (y mod 4 =? 0) && (negb (y mod 100 =? 0) || (y mod 400 =? 0)).

Definition days_in_month (y m : nat) : nat :=
  match m with
  | 1 | 3 | 5 | 7 | 8 | 10 | 12 => 31
  | 4 | 6 | 9 | 11 => 30
  | 2 => if is_leap y then 29 else 28
  | _ => 0
  end.

(** The range checks of the [datetime] constructor. *)
Definition valid_datetime (t : timestamp) : bool :=
  (1 <=? ts_Y t) && (ts_Y t <=? 9999)
  && (1 <=? ts_m t) && (ts_m t <=? 12)
  && (1 <=? ts_d t) && (ts_d t <=? days_in_month (ts_Y t) (ts_m t))
  && (ts_H t <=? 23) && (ts_M t <=? 59) && (ts_S t <=? 59).

Definition strptime_ts (v : pyval) : exn + timestamp :=
  match v with
  | VStr s =>
      match re_timestamp s with
      | [] => inl ValueError
      | (t, rest) :: _ =>
          match rest with
          | [] => if valid_datetime t then inr t else inl ValueError
          | _ :: _ => inl ValueError
          end
      end
  | _ => inl TypeError
  end.

(** [dt.strftime('%Y-%m-%d')], with the year padded to four digits. *)
Definition pad2 (n : nat) : pystr := [digit_char (n / 10); digit_char (n mod 10)].
Definition pad4 (n : nat) : pystr :=
  [digit_char (n / 1000); digit_char (n / 100 mod 10);
   digit_char (n / 10 mod 10); digit_char (n mod 10)].

Definition strftime_date (t : timestamp) : pystr :=
  pad4 (ts_Y t) ++ ["-"%char] ++ pad2 (ts_m t) ++ ["-"%char] ++ pad2 (ts_d t).

(* ------------------------------------------------------------------ *)
(** ** The effects: state and exceptions *)

Inductive kind := KDir | KFile.

Inductive mode := RGBA | RGB.

(** What the tool prints. *)
Inductive msg :=
| MExifError (e : exn)                  (* 读取EXIF信息时出错 *)
| MNoDate (name : pystr)                (* 警告: ... 未找到拍摄日期信息 *)
| MSaved (name : pystr)                 (* 已保存 *)
| MProcError (name : pystr) (e : exn)   (* 处理图片 ... 时出错 *)
| MDirMissing (p : pystr)               (* 错误: 目录 ... 不存在 *)
| MOutDir (p : pystr)                   (* 输出目录 *)
| MNoFiles                              (* 未找到支持的图片文件 *)
| MFound (n : nat)                      (* 找到 n 张图片 *)
| MFileFailed (name : pystr) (e : exn)  (* 处理 ... 失败 *)
| MDone (success total : nat)           (* 处理完成！成功: s/t *)
| MUnsupported (suffix : pystr)         (* 错误: 不支持的文件格式 *)
| MSingleDone (p : pystr)               (* 处理完成！输出文件 *)
| MSingleFailed (e : exn)               (* 处理失败 *)
| MPathMissing (p : pystr).             (* 错误: 路径 ... 不存在 *)

(** A [draw.text] call on the text layer: text, anchor, fill colour
    (the colour tuple and the alpha [int(255 * opacity)]). *)
Record draw_call := mkdraw { dc_text : pystr; dc_xy : Z * Z; dc_color : list Z; dc_alpha : Z }.

Record st := mkst {
  st_fs : list (pystr * kind);        (* entries of the file system, by path *)
  st_log : list msg;                  (* standard output *)
  st_drawn : list draw_call;          (* text drawn on text layers *)
  st_saved : list (pystr * mode)      (* images written, with their mode *)
}.

Definition M (A : Type) := st -> (exn + A) * st.

Definition ret {A} (a : A) : M A := fun s => (inr a, s).
Definition raise {A} (e : exn) : M A := fun s => (inl e, s).
Definition bind {A B} (m : M A) (f : A -> M B) : M B :=
  fun s => match m s with
           | (inl e, s') => (inl e, s')
           | (inr a, s') => f a s'
           end.
(** [try m except Exception as e: h e] *)
Definition try_except {A} (m : M A) (h : exn -> M A) : M A :=
  fun s => match m s with
           | (inl e, s') => h e s'
           | (inr a, s') => (inr a, s')
           end.

Notation "x <- m ;; k" := (bind m (fun x => k)) (at level 61, m at next level, right associativity).
Notation "m ;;; k" := (bind m (fun _ => k)) (at level 61, right associativity).

Definition print (m : msg) : M unit :=
  fun s => (inr tt, mkst (st_fs s) (st_log s ++ [m]) (st_drawn s) (st_saved s)).
(** [draw.text(..., fill=color + (alpha,))] on an RGBA layer: Pillow's
    [getink] takes a fill tuple of one, three or four entries and raises
    [TypeError] on any other length; the text is drawn otherwise. *)
Definition fill_ok (d : draw_call) : bool :=
  match List.length (dc_color d ++ [dc_alpha d]) with 1 | 3 | 4 => true | _ => false end.

Definition draw (d : draw_call) : M unit :=
  fun s => if fill_ok d then (inr tt, mkst (st_fs s) (st_log s) (st_drawn s ++ [d]) (st_saved s))
           else (inl TypeError, s).

Fixpoint fs_lookup (p : pystr) (fs : list (pystr * kind)) : option kind :=
  match fs with
  | [] => None
  | (q, k) :: fs' => if str_eqb p q then Some k else fs_lookup p fs'
  end.

(** [Path.mkdir(exist_ok=True)]: creates the directory, does nothing when a
    directory is already there, raises [FileExistsError] on a file. *)
Definition mkdir_exist_ok (p : pystr) : M unit :=
  fun s => match fs_lookup p (st_fs s) with
           | None => (inr tt, mkst ((p, KDir) :: st_fs s) (st_log s) (st_drawn s) (st_saved s))
           | Some KDir => (inr tt, s)
           | Some KFile => (inl FileExistsError, s)
           end.

(** [Image.save(path)]: the file is written. Pillow also raises on an
    unknown or missing extension and on a missing directory, which is not
    modelled: with the [Path] that [main] passes, [add_watermark] raises in
    [save_mode] before it reaches [save]. *)
Definition save (p : pystr) (md : mode) : M unit :=
  fun s => (inr tt, mkst ((p, KFile) :: st_fs s) (st_log s) (st_drawn s) (st_saved s ++ [(p, md)])).

(* ------------------------------------------------------------------ *)
(** ** Images and their EXIF data *)

(** What [img._getexif()] gives: it raises on a malformed container,
    returns [None] without EXIF data, or the tag dictionary, an
    insertion-ordered association list from tag ids. *)
Inductive exif :=
| ExifUnreadable
| ExifNone
| ExifDict (d : list (Z * pyval)).

(** A file's content as [Image.open] sees it. *)
Inductive image :=
| ImgCorrupt
| ImgOk (width height : Z) (md : exif).

(** [PIL.ExifTags.TAGS] on the ids of interest; other ids are unnamed. *)
Definition TAGS (id : Z) : option pystr :=
  if Z.eqb id 271 then Some (py "Make")
  else if Z.eqb id 272 then Some (py "Model")
  else if Z.eqb id 274 then Some (py "Orientation")
  else if Z.eqb id 306 then Some (py "DateTime")
  else if Z.eqb id 36867 then Some (py "DateTimeOriginal")
  else if Z.eqb id 36868 then Some (py "DateTimeDigitized")
  else None.

(** [ExifTags.TAGS.get(tag_id, tag_id)]: a name, or the id itself. *)
Inductive tagkey := TName (n : pystr) | TId (z : Z).
Definition tag_of (id : Z) : tagkey :=
  match TAGS id with Some n => TName n | None => TId id end.
Definition tag_eq (t : tagkey) (name : pystr) : bool :=
  match t with TName n => str_eqb n name | TId _ => false end.

(** One [for tag_id, value in exif_data.items()] loop looking for [name]:
    a parsed value returns, a [ValueError] continues, any other exception
    leaves the loop and the function. *)
Inductive scan := Found (d : pystr) | Raised (e : exn) | Exhausted.

Fixpoint scan_tag (name : pystr) (items : list (Z * pyval)) : scan :=
  match items with
  | [] => Exhausted
  | (id, v) :: rest =>
      if tag_eq (tag_of id) name then
        match strptime_ts v with
        | inr t => Found (strftime_date t)
        | inl ValueError => scan_tag name rest
        | inl e => Raised e
        end
      else scan_tag name rest
  end.

Definition date_tags : list pystr := [py "DateTimeOriginal"; py "DateTimeDigitized"].

(** The first loop (for [DateTime]) and then [for tag_name in date_tags]. *)
Definition scan_exif (d : list (Z * pyval)) : scan :=
  fold_left (fun acc name => match acc with Exhausted => scan_tag name d | _ => acc end)
    date_tags (scan_tag (py "DateTime") d).

Definition get_shooting_date (img : image) : M (option pystr) :=
  match img with
  | ImgCorrupt => print (MExifError OSError) ;;; ret None
  | ImgOk _ _ ExifUnreadable => print (MExifError ValueError) ;;; ret None
  | ImgOk _ _ ExifNone => ret None
  | ImgOk _ _ (ExifDict d) =>
      match scan_exif d with
      | Found s => ret (Some s)
      | Exhausted => ret None
      | Raised e => print (MExifError e) ;;; ret None
      end
  end.

(* ------------------------------------------------------------------ *)
(** ** Paths *)

(** A path as its parent directory and its last component [Path.name]. *)
Record ppath := mkpath { p_parent : pystr; p_name : pystr }.

(** The [/] operator of [pathlib], for a directory other than [.] or [/]
    and a name that is one component other than [.]: the two joined by a
    separator ([pathlib] also drops an empty or [.] component, which this
    concatenation does not). *)
Definition join (dir name : pystr) : pystr := dir ++ ["/"%char] ++ name.
Definition path_str (p : ppath) : pystr := join (p_parent p) (p_name p).

(** [str.rfind('.')], as the index of the last dot, if any. *)
Fixpoint last_dot (s : pystr) : option nat :=
  match s with
  | [] => None
  | c :: s' =>
      match last_dot s' with
      | Some i => Some (S i)
      | None => if ascii_eqb c "." then Some 0 else None
      end
  end.

(** [PurePath.suffix]: [name[i:]] when [0 < i < len(name) - 1], else ''. *)
Definition suffix (name : pystr) : pystr :=
  match last_dot name with
  | Some i => if (0 <? i) && (i <? List.length name - 1) then skipn i name else []
  | None => []
  end.

(** [PurePath.stem]: [name[:i]] under the same condition, else the name. *)
Definition stem (name : pystr) : pystr :=
  match last_dot name with
  | Some i => if (0 <? i) && (i <? List.length name - 1) then firstn i name else name
  | None => name
  end.

(** [Path.glob('*' + pat)] on a (non-recursive, case-sensitive POSIX)
    directory listing: the entries whose name ends with [pat], in listing
    order. *)
Definition glob (listing : list (pystr * image)) (pat : pystr) : list (pystr * image) :=
  filter (fun '(n, _) => endswith n pat) listing.

(** [self.supported_formats], listed; the iteration order of the Python
    set is a parameter of [process_directory]. *)
Definition supported_formats : list pystr :=
  [py ".jpg"; py ".jpeg"; py ".png"; py ".bmp"; py ".tiff"; py ".tif"].

Definition mem (x : pystr) (l : list pystr) : bool := existsb (str_eqb x) l.

(* ------------------------------------------------------------------ *)
(** ** [PhotoWatermark.add_watermark] *)

Definition placeholder : pystr := py "未知日期".

Definition margin : Z := 20.

(** The anchor computation of [add_watermark] (the [if position == ...]
    chain); any other position string takes the [else] branch. *)
Open Scope Z_scope.
Definition watermark_position (position : pystr) (width height text_width text_height : Z) : Z * Z :=
  if str_eqb position (py "top-left") then (margin, margin)
  else if str_eqb position (py "top-right") then (width - text_width - margin, margin)
  else if str_eqb position (py "center") then ((width - text_width) / 2, (height - text_height) / 2)
  else if str_eqb position (py "bottom-left") then (margin, height - text_height - margin)
  else (width - text_width - margin, height - text_height - margin).
Close Scope Z_scope.

(** [int(255 * opacity)]: truncation toward zero of the exact product (the
    float is taken as the rational it stands for, and the rounding of the
    float product is not modelled; for an opacity written with at most three
    decimals in [0, 1] the two agree). *)
Definition alpha_of (opacity : Q) : Z := Z.quot (255 * Qnum opacity) (Zpos (Qden opacity)) %Z.

(** The [output_path] argument: a [str], or a [pathlib.Path], which has no
    [lower] method. *)
Inductive pyout := OStr (s : pystr) | OPath (p : pystr).

Definition out_str (o : pyout) : pystr := match o with OStr s => s | OPath p => p end.

Fixpoint basename_rev (r acc : pystr) : pystr :=
  match r with
  | [] => acc
  | c :: r' => if ascii_eqb c "/" then acc else basename_rev r' (c :: acc)
  end.
(** [os.path.basename]. *)
Definition basename (s : pystr) : pystr := basename_rev (rev s) [].

(** [output_path.lower().endswith('.jpg') or ....endswith('.jpeg')]
    choosing the mode that is saved. *)
Definition save_mode (output_path : pyout) : M mode :=
  match output_path with
  | OPath _ => raise AttributeError
  | OStr s =>
      ret (if endswith (str_lower s) (py ".jpg") || endswith (str_lower s) (py ".jpeg")
           then RGB else RGBA)
  end.

Section Composer.

(** [draw.textbbox((0, 0), text, font=font)] for the font loaded at a size
    (the TrueType font, or the built-in one when it fails to load). *)
Variable textbbox : pystr -> Z -> Z * Z * Z * Z.

Definition add_watermark (image_path : pystr) (img : image) (output_path : pyout)
    (font_size : Z) (color : list Z) (position : pystr) (opacity : Q) : M unit :=
  try_except
    (match img with
     | ImgCorrupt => raise OSError
     | ImgOk width height _ =>
         shooting_date <- get_shooting_date img ;;
         text <- match shooting_date with
                 | None => print (MNoDate (basename image_path)) ;;; ret placeholder
                 | Some d => ret d
                 end ;;
         let '(b0, b1, b2, b3) := textbbox text font_size in
         let text_width := (b2 - b0)%Z in
         let text_height := (b3 - b1)%Z in
         let xy := watermark_position position width height text_width text_height in
         draw (mkdraw text xy color (alpha_of opacity)) ;;;
         md <- save_mode output_path ;;
         save (out_str output_path) md ;;;
         print (MSaved (basename (out_str output_path)))
     end)
    (fun e => print (MProcError (basename image_path) e) ;;; raise e).

(* ------------------------------------------------------------------ *)
(** ** [PhotoWatermark.process_directory] *)

Fixpoint process_files (output_dir : pystr) (files : list (pystr * image))
    (font_size : Z) (color : list Z) (position : pystr) (opacity : Q)
    (success_count : nat) : M nat :=
  match files with
  | [] => ret success_count
  | (name, img) :: rest =>
      ok <- try_except
              (add_watermark name img (OPath (join output_dir name)) font_size color position opacity
               ;;; ret true)
              (fun e => print (MFileFailed name e) ;;; ret false) ;;
      process_files output_dir rest font_size color position opacity
        (if ok then S success_count else success_count)
  end.

(** [image_files]: [glob('*' + ext)] then [glob('*' + ext.upper())] for each
    extension, in the set's iteration order [order]. *)
Definition image_files (order : list pystr) (listing : list (pystr * image)) : list (pystr * image) :=
  flat_map (fun ext => glob listing ext ++ glob listing (str_upper ext)) order.

Definition output_dir_of (input_path : ppath) : pystr :=
  join (p_parent input_path) (p_name input_path ++ py "_watermark").

Definition process_directory (order : list pystr) (exists_ : bool) (input_path : ppath)
    (listing : list (pystr * image)) (font_size : Z) (color : list Z) (position : pystr)
    (opacity : Q) : M unit :=
  if negb exists_ then print (MDirMissing (path_str input_path))
  else
    let output_dir := output_dir_of input_path in
    mkdir_exist_ok output_dir ;;;
    print (MOutDir output_dir) ;;;
    let files := image_files order listing in
    match files with
    | [] => print MNoFiles
    | _ :: _ =>
        print (MFound (List.length files)) ;;;
        success_count <- process_files output_dir files font_size color position opacity 0 ;;
        print (MDone success_count (List.length files)) ;;;
        print (MOutDir output_dir)
    end.

End Composer.

(* ------------------------------------------------------------------ *)
(** ** [parse_color] *)

(** Digit values in bases up to 16. *)
Definition hexval (c : ascii) : option Z :=
  let n := nat_of_ascii c in
  if (48 <=? n) && (n <=? 57) then Some (Z.of_nat (n - 48))
  else if (97 <=? n) && (n <=? 102) then Some (Z.of_nat (n - 87))
  else if (65 <=? n) && (n <=? 70) then Some (Z.of_nat (n - 55))
  else None.

Definition digit_of (base : Z) (c : ascii) : option Z :=
  match hexval c with
  | Some d => if (d <? base)%Z then Some d else None
  | None => None
  end.

Fixpoint lstrip_space (s : pystr) : pystr :=
  match s with
  | c :: r => if int_space c then lstrip_space r else s
  | [] => []
  end.

(** The digits after the first one: a single [_] may separate two digits;
    trailing whitespace ends the number; anything else is an error. *)
Fixpoint digits_tail (base : Z) (s : pystr) (acc : Z) : option Z :=
  match s with
  | [] => Some acc
  | c :: r =>
      match digit_of base c with
      | Some d => digits_tail base r (acc * base + d)%Z
      | None =>
          if ascii_eqb c "_" then
            match r with
            | c' :: r' =>
                match digit_of base c' with
                | Some d' => digits_tail base r' (acc * base + d')%Z
                | None => None
                end
            | [] => None
            end
          else if forallb int_space s then Some acc else None
      end
  end.

(** [int(s, base)] for [base] 10 or 16 ([PyLong_FromString]): leading
    whitespace, an optional sign, in base 16 an optional [0x]/[0X] prefix
    which one [_] may follow, at least one digit, then [digits_tail]. *)
Definition py_int (base : Z) (s : pystr) : option Z :=
  let s1 := lstrip_space s in
  let '(neg, s2) := match s1 with
                    | "-"%char :: r => (true, r)
                    | "+"%char :: r => (false, r)
                    | _ => (false, s1)
                    end in
  let s3 := if Z.eqb base 16 then
              match s2 with
              | "0"%char :: x :: r =>
                  if ascii_eqb x "x" || ascii_eqb x "X" then
                    match r with "_"%char :: r' => r' | _ => r end
                  else s2
              | _ => s2
              end
            else s2 in
  match s3 with
  | c :: r =>
      match digit_of base c with
      | Some d => option_map (fun v => if neg then Z.opp v else v) (digits_tail base r d)
      | None => None
      end
  | [] => None
  end.

Fixpoint lstrip_hash (s : pystr) : pystr :=
  match s with
  | "#"%char :: r => lstrip_hash r
  | _ => s
  end.

(** [s[i:i+2]]. *)
Definition slice2 (s : pystr) (i : nat) : pystr := firstn 2 (skipn i s).

Fixpoint split_comma_aux (s cur : pystr) : list pystr :=
  match s with
  | [] => [rev cur]
  | c :: r => if ascii_eqb c "," then rev cur :: split_comma_aux r [] else split_comma_aux r (c :: cur)
  end.
(** [s.split(',')]. *)
Definition split_comma (s : pystr) : list pystr := split_comma_aux s [].

(** [map] that raises as soon as one conversion fails. *)
Fixpoint map_all (f : pystr -> option Z) (l : list pystr) : option (list Z) :=
  match l with
  | [] => Some []
  | x :: l' => match f x, map_all f l' with Some v, Some vs => Some (v :: vs) | _, _ => None end
  end.

Definition white : list Z := [255; 255; 255]%Z.

Definition colors : list (pystr * list Z) :=
  [(py "white", [255; 255; 255]%Z); (py "black", [0; 0; 0]%Z); (py "red", [255; 0; 0]%Z);
   (py "green", [0; 255; 0]%Z); (py "blue", [0; 0; 255]%Z); (py "yellow", [255; 255; 0]%Z);
   (py "cyan", [0; 255; 255]%Z); (py "magenta", [255; 0; 255]%Z)].

Fixpoint dict_get (k : pystr) (d : list (pystr * list Z)) (default : list Z) : list Z :=
  match d with
  | [] => default
  | (k', v) :: d' => if str_eqb k k' then v else dict_get k d' default
  end.

(** A Python tuple of ints is a list; every failed [int] lands in the bare
    [except] and gives white. *)
Definition parse_color (color_str : pystr) : list Z :=
  if startswith color_str (py "#") then
    let c := lstrip_hash color_str in
    match map_all (py_int 16) [slice2 c 0; slice2 c 2; slice2 c 4] with
    | Some t => t
    | None => white
    end
  else if existsb (ascii_eqb ",") color_str then
    match map_all (py_int 10) (split_comma color_str) with
    | Some t => t
    | None => white
    end
  else dict_get (str_lower color_str) colors white.

(* ------------------------------------------------------------------ *)
(** ** [main] *)

(** What [Path(args.input_path)] is: a file (with its content), a
    directory (with its listing) or nothing. *)
Inductive input :=
| InFile (p : ppath) (img : image)
| InDir (p : ppath) (listing : list (pystr * image))
| InMissing (p : pystr).

(** [main] after [argparse]: [order] is the iteration order of
    [supported_formats]. *)
Definition main (textbbox : pystr -> Z -> Z * Z * Z * Z) (order : list pystr)
    (inp : input) (font_size : Z) (color_arg : pystr) (position : pystr) (opacity : Q) : M unit :=
  let color := parse_color color_arg in
  match inp with
  | InFile input_path img =>
      let sfx := suffix (p_name input_path) in
      if negb (mem (str_lower sfx) supported_formats) then print (MUnsupported sfx)
      else
        let output_dir := join (p_parent input_path) (stem (p_name input_path) ++ py "_watermark") in
        mkdir_exist_ok output_dir ;;;
        let output_path := join output_dir (p_name input_path) in
        try_except
          (add_watermark textbbox (path_str input_path) img (OPath output_path) font_size color position opacity
           ;;; print (MSingleDone output_path))
          (fun e => print (MSingleFailed e))
  | InDir input_path listing =>
      process_directory textbbox order true input_path listing font_size color position opacity
  | InMissing p => print (MPathMissing p)
  end.

(* ------------------------------------------------------------------ *)
(** ** Auxiliary notions used in the statements *)

(** A candidate of the date search: one of the three timestamp tags. *)
Definition is_date_tag (id : Z) : bool :=
  existsb (tag_eq (tag_of id)) [py "DateTime"; py "DateTimeOriginal"; py "DateTimeDigitized"].





(** The twelve patterns directory mode globs for ([ext] and [ext.upper()]). *)
Definition dir_patterns : list pystr := flat_map (fun e => [e; str_upper e]) supported_formats.

(** A name directory mode picks up. *)
Definition dir_match (name : pystr) : bool := existsb (endswith name) dir_patterns.

Definition is_file_failed (m : msg) : bool := match m with MFileFailed _ _ => true | _ => false end.

Definition count_failed (l : list msg) : nat := List.length (filter is_file_failed l).

(** [str(n)] for a natural number: its decimal digits, most significant first. *)
Fixpoint ndigits_aux (fuel n : nat) (acc : list nat) : list nat :=
  match fuel with
  | 0 => n :: acc
  | S f => if n <? 10 then n :: acc else ndigits_aux f (n / 10) (n mod 10 :: acc)
  end.
Definition ndigits (n : nat) : list nat := ndigits_aux n n [].

(** [str(z)] for a Python int. *)
Definition z_repr (z : Z) : pystr :=
  if (z <? 0)%Z then "-"%char :: map digit_char (ndigits (Z.to_nat (- z)))
  else map digit_char (ndigits (Z.to_nat z)).

(** [','.join(pieces)]. *)
Fixpoint join_comma (l : list pystr) : pystr :=
  match l with
  | [] => []
  | [x] => x
  | x :: l' => x ++ ","%char :: join_comma l'
  end.

Definition gZ (acc : Z) (d : nat) : Z := (acc * 10 + Z.of_nat d)%Z.

(** The EXIF text [YYYY:MM:DD HH:MM:SS] of a timestamp, every field
    zero-padded to its width. *)
Definition stamp_text (t : timestamp) : pystr :=
  pad4 (ts_Y t) ++ ":"%char :: pad2 (ts_m t) ++ ":"%char :: pad2 (ts_d t) ++ " "%char ::
  pad2 (ts_H t) ++ ":"%char :: pad2 (ts_M t) ++ ":"%char :: pad2 (ts_S t).

(** The candidates of the date search, in the order they are tried: the
    [DateTime] entries, then [DateTimeOriginal], then [DateTimeDigitized]. *)
Definition candidates (d : list (Z * pyval)) : list (Z * pyval) :=
  flat_map (fun name => filter (fun '(id, _) => tag_eq (tag_of id) name) d)
    [py "DateTime"; py "DateTimeOriginal"; py "DateTimeDigitized"].

(** The first candidate whose value is accepted, skipping the others. *)
Fixpoint first_ok (l : list (Z * pyval)) : option timestamp :=
  match l with
  | [] => None
  | (_, v) :: l' => match strptime_ts v with inr t => Some t | inl _ => first_ok l' end
  end.

(** A colour piece [a + str(z) + b] with padding around the number. *)
Definition padded_piece (p : pystr * Z * pystr) : pystr := let '(a, z, b) := p in a ++ z_repr z ++ b.

(** The 256 characters. *)
Definition all_ascii : list ascii := map ascii_of_nat (seq 0 256).

(** [int(p, 16)], when it succeeds, is between -15 and 255. *)
Definition hex_piece_ok (s : pystr) : bool :=
  match py_int 16 s with Some v => (-15 <=? v)%Z && (v <=? 255)%Z | None => true end.

(* ================================================================== *)
(** * Properties *)

(** ** General facts about the model *)

Lemma ascii_eqb_refl : forall c, ascii_eqb c c = true.
Proof. intro c. unfold ascii_eqb. destruct (ascii_dec c c); congruence. Qed.

Lemma ascii_eqb_true : forall a b, ascii_eqb a b = true -> a = b.
Proof. intros a b. unfold ascii_eqb. destruct (ascii_dec a b); congruence. Qed.

Lemma str_eqb_refl : forall s, str_eqb s s = true.
Proof. induction s as [|c s IH]; simpl; [reflexivity|]. rewrite ascii_eqb_refl, IH. reflexivity. Qed.

Lemma str_eqb_true : forall s t, str_eqb s t = true -> s = t.
Proof.
  induction s as [|a s IH]; destruct t as [|b t]; simpl; try discriminate; [reflexivity|].
  intro H. apply andb_prop in H as [H1 H2].
  apply ascii_eqb_true in H1. apply IH in H2. subst. reflexivity.
Qed.

Create HintDb pw.
#[export] Hint Resolve ascii_eqb_refl str_eqb_refl : pw.

(** ** The anchor of the watermark *)

(** [C4] The anchor of each named position: a fixed margin of 20 from the
    relevant edges for the corners, floor-halved centring for [center]; the
    coordinates are the raw differences, negative when the text is larger
    than the image less the margins (no clamping). *)
Theorem watermark_position_spec : forall width height text_width text_height : Z,
  watermark_position (py "top-left") width height text_width text_height = (20, 20)%Z /\
  watermark_position (py "top-right") width height text_width text_height
    = (width - text_width - 20, 20)%Z /\
  watermark_position (py "center") width height text_width text_height
    = ((width - text_width) / 2, (height - text_height) / 2)%Z /\
  watermark_position (py "bottom-left") width height text_width text_height
    = (20, height - text_height - 20)%Z /\
  watermark_position (py "bottom-right") width height text_width text_height
    = (width - text_width - 20, height - text_height - 20)%Z /\
  ((width - 20 < text_width)%Z ->
     (fst (watermark_position (py "bottom-right") width height text_width text_height) < 0)%Z).
Proof.
  intros w h tw th. unfold watermark_position, margin.
  repeat split; simpl; lia.
Qed.

(** ** Single-file mode *)

(** [C7] A single file whose suffix, lowered, is not one of the supported
    extensions is rejected: [main] prints the unsupported-format error and
    returns with the file system untouched (no output directory) and
    nothing drawn or written. *)
Theorem main_rejects_unsupported_file :
  forall textbbox order input_path img font_size color_arg position opacity s,
  mem (str_lower (suffix (p_name input_path))) supported_formats = false ->
  main textbbox order (InFile input_path img) font_size color_arg position opacity s
  = (inr tt, mkst (st_fs s) (st_log s ++ [MUnsupported (suffix (p_name input_path))])
                  (st_drawn s) (st_saved s)).
Proof.
  intros tb order ip img fsz ca pos op s H.
  unfold main. rewrite H. reflexivity.
Qed.

Lemma main_rejects_unsupported_file_witness :
  mem (str_lower (suffix (py "holiday.GIF"))) supported_formats = false /\
  main (fun t _ => (0, 0, 10, 10)%Z) supported_formats
       (InFile (mkpath (py "/photos") (py "holiday.GIF")) ImgCorrupt) 36%Z (py "white")
       (py "bottom-right") (4 # 5) (mkst [] [] [] [])
  = (inr tt, mkst [] [MUnsupported (py ".GIF")] [] []).
Proof.
  split; [vm_compute; reflexivity|].
  apply (main_rejects_unsupported_file (fun t _ => (0, 0, 10, 10)%Z) supported_formats
           (mkpath (py "/photos") (py "holiday.GIF")) ImgCorrupt 36%Z (py "white")
           (py "bottom-right") (4 # 5) (mkst [] [] [] [])).
  vm_compute. reflexivity.
Defined.

(** ** Directory mode with nothing to process *)

Lemma fs_lookup_head : forall p k fs, fs_lookup p ((p, k) :: fs) = Some k.
Proof. intros. simpl. rewrite str_eqb_refl. reflexivity. Qed.

Lemma mkdir_exist_ok_spec : forall p s,
  fs_lookup p (st_fs s) <> Some KFile ->
  exists s', mkdir_exist_ok p s = (inr tt, s') /\
    fs_lookup p (st_fs s') = Some KDir /\ st_log s' = st_log s /\
    st_drawn s' = st_drawn s /\ st_saved s' = st_saved s /\
    (fs_lookup p (st_fs s) = None -> st_fs s' <> st_fs s).
Proof.
  intros p s Hnf. unfold mkdir_exist_ok.
  destruct (fs_lookup p (st_fs s)) as [[|]|] eqn:E.
  - exists s. repeat split; auto. discriminate.
  - exfalso. apply Hnf. reflexivity.
  - eexists. split; [reflexivity|]. simpl. rewrite str_eqb_refl.
    repeat split; auto. intros _ Heq.
    assert (List.length ((p, KDir) :: st_fs s) = List.length (st_fs s)) as Hl
      by (rewrite Heq; reflexivity).
    simpl in Hl. lia.
Qed.

(** [C9] In directory mode the output directory is made before the listing
    is searched: on an existing input directory whose listing has no
    supported file, the run prints the output directory and the
    no-file message and stops, and the output directory exists afterwards;
    when it did not exist before, the file system has changed. *)
Theorem process_directory_empty_creates_output :
  forall textbbox order input_path listing font_size color position opacity s,
  image_files order listing = [] ->
  fs_lookup (output_dir_of input_path) (st_fs s) <> Some KFile ->
  let r := process_directory textbbox order true input_path listing font_size color position opacity s in
  fst r = inr tt /\
  fs_lookup (output_dir_of input_path) (st_fs (snd r)) = Some KDir /\
  st_log (snd r) = st_log s ++ [MOutDir (output_dir_of input_path); MNoFiles] /\
  st_saved (snd r) = st_saved s /\
  (fs_lookup (output_dir_of input_path) (st_fs s) = None -> st_fs (snd r) <> st_fs s).
Proof.
  intros tb order ip listing fsz col pos op s Hnone Hnf r.
  destruct (mkdir_exist_ok_spec (output_dir_of ip) s Hnf) as (s1 & Hm & Hfs & Hlog & Hdr & Hsv & Hch).
  subst r. unfold process_directory. cbn [negb].
  unfold bind. rewrite Hm. unfold print. rewrite Hnone. simpl.
  rewrite Hlog, Hsv. repeat split; auto. now rewrite <- app_assoc.
Qed.

Lemma process_directory_empty_creates_output_witness :
  image_files supported_formats [(py "notes.txt", ImgCorrupt)] = [] /\
  fs_lookup (output_dir_of (mkpath (py "/home") (py "trip"))) [] <> Some KFile /\
  fst (process_directory (fun t _ => (0, 0, 10, 10)%Z) supported_formats true
         (mkpath (py "/home") (py "trip")) [(py "notes.txt", ImgCorrupt)] 36%Z white
         (py "bottom-right") (4 # 5) (mkst [] [] [] [])) = inr tt.
Proof.
  split; [vm_compute; reflexivity|]. split; [vm_compute; discriminate|].
  apply (process_directory_empty_creates_output (fun t _ => (0, 0, 10, 10)%Z) supported_formats
           (mkpath (py "/home") (py "trip")) [(py "notes.txt", ImgCorrupt)] 36%Z white
           (py "bottom-right") (4 # 5) (mkst [] [] [] [])); vm_compute; [reflexivity | discriminate].
Defined.

(** ** Reading the shooting date *)

(** [get_shooting_date] never raises and only prints. *)
Lemma get_shooting_date_spec : forall img s, exists r l,
  get_shooting_date img s = (inr r, mkst (st_fs s) (st_log s ++ l) (st_drawn s) (st_saved s)).
Proof.
  intros img s. destruct img as [|w h md].
  - eexists _, _. reflexivity.
  - destruct md as [| |d]; simpl.
    + eexists _, _. reflexivity.
    + exists None, []. rewrite app_nil_r. destruct s; reflexivity.
    + destruct (scan_exif d) as [x|e|].
      * exists (Some x), []. rewrite app_nil_r. destruct s; reflexivity.
      * eexists _, _. reflexivity.
      * exists None, []. rewrite app_nil_r. destruct s; reflexivity.
Qed.


(** With a [Path] as output path, [add_watermark] raises and writes nothing. *)
Lemma add_watermark_opath : forall textbbox image_path img p font_size color position opacity s,
  exists e,
  fst (add_watermark textbbox image_path img (OPath p) font_size color position opacity s) = inl e /\
  st_saved (snd (add_watermark textbbox image_path img (OPath p) font_size color position opacity s))
    = st_saved s /\
  st_fs (snd (add_watermark textbbox image_path img (OPath p) font_size color position opacity s))
    = st_fs s.
Proof.
  intros tb ip img p fsz col pos op s.
  unfold add_watermark, try_except, bind.
  destruct img as [|w h md]; [eexists; simpl; auto|].
  destruct (get_shooting_date_spec (ImgOk w h md) s) as (r & l & Hg). rewrite Hg.
  destruct r as [d|]; simpl; destruct (tb _ fsz) as [[[b0 b1] b2] b3]; simpl;
    unfold draw; destruct (fill_ok _); simpl; eexists; repeat split; reflexivity.
Qed.








(** ** The timestamp search stops on a non-string value *)

(** [C5] The fallback to the alternate tags is reached from an unparseable
    [DateTime] string (the [except ValueError] path), but a [DateTime] value
    that is not a [str] (here the [bytes] of an UNDEFINED-typed tag) makes
    [strptime] raise [TypeError], which leaves the whole search: the valid
    [DateTimeOriginal] is never tried and the result is [None]. *)
Theorem shooting_date_bytes_primary_hides_alternate :
  fst (get_shooting_date
         (ImgOk 640 480 (ExifDict [(306%Z, VBytes (py "2023:10:15 14:30:25"));
                                   (36867%Z, VStr (py "2023:10:15 14:30:25"))]))
         (mkst [] [] [] [])) = inr None /\
  fst (get_shooting_date
         (ImgOk 640 480 (ExifDict [(306%Z, VStr (py "0000:00:00 00:00:00"));
                                   (36867%Z, VStr (py "2023:10:15 14:30:25"))]))
         (mkst [] [] [] [])) = inr (Some (py "2023-10-15")).
Proof. split; vm_compute; reflexivity. Qed.

(** ** Saving *)

(** [C8] The callers hand [add_watermark] a [pathlib.Path]
    ([output_dir / name]); [output_path.lower()] then raises
    [AttributeError] before the JPEG check and the save, so no image is
    ever written: for every image and output path, and on a single
    [.jpg] run of [main].  With a [str] path the check does what was meant:
    a [.jpg]/[.jpeg] output (any case) is saved as RGB, a [.png] one as
    RGBA. *)
Theorem add_watermark_path_never_saves :
  (forall textbbox image_path img p font_size color position opacity s,
     st_saved (snd (add_watermark textbbox image_path img (OPath p) font_size color position opacity s))
     = st_saved s) /\
  (let r := main (fun t _ => (0, 0, 120, 30)%Z) supported_formats
              (InFile (mkpath (py "/photos") (py "IMG_1.jpg"))
                      (ImgOk 640 480 (ExifDict [(36867%Z, VStr (py "2023:10:15 14:30:25"))])))
              36%Z (py "white") (py "bottom-right") (4 # 5) (mkst [] [] [] []) in
   st_saved (snd r) = [] /\ last (st_log (snd r)) MNoFiles = MSingleFailed AttributeError) /\
  st_saved (snd (add_watermark (fun t _ => (0, 0, 120, 30)%Z) (py "IMG_1.jpg")
                   (ImgOk 640 480 ExifNone) (OStr (py "/photos/out/IMG_1.JPG"))
                   36%Z white (py "bottom-right") (4 # 5) (mkst [] [] [] [])))
    = [(py "/photos/out/IMG_1.JPG", RGB)] /\
  st_saved (snd (add_watermark (fun t _ => (0, 0, 120, 30)%Z) (py "IMG_1.png")
                   (ImgOk 640 480 ExifNone) (OStr (py "/photos/out/IMG_1.png"))
                   36%Z white (py "bottom-right") (4 # 5) (mkst [] [] [] [])))
    = [(py "/photos/out/IMG_1.png", RGBA)].
Proof.
  split; [|split; [|split]].
  - intros. destruct (add_watermark_opath textbbox image_path img p font_size color position opacity s)
      as (e & _ & Hs & _). exact Hs.
  - vm_compute. split; reflexivity.
  - vm_compute. reflexivity.
  - vm_compute. reflexivity.
Qed.

(** ** Extensions, suffixes and glob patterns *)



Lemma startswith_iff : forall p s, startswith s p = true <-> exists t, s = p ++ t.
Proof.
  induction p as [|c p IH]; intros s; simpl.
  - split; [intros _; exists s; reflexivity | intros _; destruct s; reflexivity].
  - destruct s as [|d s].
    + split; [discriminate | intros [t Ht]; discriminate].
    + split.
      * intro H. apply andb_prop in H as [H1 H2]. apply ascii_eqb_true in H1. subst d.
        apply IH in H2 as [t ->]. exists t. reflexivity.
      * intros [t Ht]. injection Ht as Hdc Hs. subst. simpl. rewrite ascii_eqb_refl. simpl.
        apply IH. exists t. reflexivity.
Qed.

Lemma endswith_iff : forall s p, endswith s p = true <-> exists t, s = t ++ p.
Proof.
  intros s p. unfold endswith. rewrite startswith_iff. split.
  - intros [u Hu]. exists (rev u). rewrite <- (rev_involutive s), Hu, rev_app_distr, rev_involutive.
    reflexivity.
  - intros [t ->]. exists (rev t). apply rev_app_distr.
Qed.

Lemma last_dot_app : forall s t i, last_dot t = Some i -> last_dot (s ++ t) = Some (List.length s + i).
Proof.
  induction s as [|c s IH]; intros t i H; simpl; [exact H|].
  rewrite (IH t i H). reflexivity.
Qed.

Lemma mem_In : forall x l, In x l -> mem x l = true.
Proof.
  intros x l H. unfold mem. apply existsb_exists. exists x. split; [exact H|apply str_eqb_refl].
Qed.

Lemma dir_patterns_shape : forall p, In p dir_patterns ->
  last_dot p = Some 0 /\ 2 <= List.length p /\ suffix p = [] /\
  exists e, In e supported_formats /\ str_lower p = e.
Proof.
  intros p H. unfold dir_patterns in H. simpl in H.
  repeat (destruct H as [H|H]; [subst p; split; [reflexivity|]; split; [simpl; lia|];
                               split; [reflexivity|]; eexists; split; [|vm_compute; reflexivity];
                               simpl; tauto|]).
  destruct H.
Qed.

Lemma suffix_app_pattern : forall s p, In p dir_patterns -> s <> [] -> suffix (s ++ p) = p.
Proof.
  intros s p Hp Hs. destruct (dir_patterns_shape p Hp) as (Hd & Hl & _ & _).
  unfold suffix. rewrite (last_dot_app s p 0 Hd). rewrite length_app.
  destruct s as [|c s']; [congruence|].
  assert ((0 <? List.length (c :: s') + 0) = true) as E1 by (apply Nat.ltb_lt; simpl; lia).
  assert ((List.length (c :: s') + 0 <? List.length (c :: s') + List.length p - 1) = true) as E2
    by (apply Nat.ltb_lt; lia).
  rewrite E1, E2. simpl.
  rewrite Nat.add_0_r. rewrite skipn_app, skipn_all, Nat.sub_diag. reflexivity.
Qed.

Lemma in_image_files : forall x order listing,
  In x (image_files order listing) ->
  In x listing /\ exists e, In e order /\ (endswith (fst x) e = true \/ endswith (fst x) (str_upper e) = true).
Proof.
  intros [n img] order listing H. unfold image_files in H.
  apply in_flat_map in H as [e [He Hx]]. apply in_app_or in Hx as [Hx|Hx];
    unfold glob in Hx; apply filter_In in Hx as [Hx Hm]; (split; [exact Hx|]); exists e; auto.
Qed.

(** A name in [dir_patterns] form picked up by the glob has exactly that
    pattern as its suffix, unless the name is the bare pattern. *)
Lemma endswith_pattern_suffix : forall name p,
  In p dir_patterns -> endswith name p = true -> suffix name <> [] -> suffix name = p.
Proof.
  intros name p Hp He Hne. apply endswith_iff in He as [t ->].
  destruct t as [|c t].
  - exfalso. apply Hne. simpl. apply (dir_patterns_shape p Hp).
  - apply suffix_app_pattern; [exact Hp|discriminate].
Qed.

Lemma supported_variants_in_patterns : forall e, In e supported_formats ->
  In e dir_patterns /\ In (str_upper e) dir_patterns.
Proof.
  intros e He. unfold dir_patterns. split; apply in_flat_map; exists e; split; simpl; auto.
Qed.

(** [C10] Single-file mode lowers the suffix and directory mode globs only
    the all-lowercase and all-uppercase patterns: a name whose suffix is a
    supported extension in any case mix other than those two (such as
    [.JpG]) is taken by [main] in single-file mode (which creates its output
    directory) and is left out of [image_files] in directory mode. *)
Theorem mixed_case_extension_asymmetry : forall name,
  mem (str_lower (suffix name)) supported_formats = true ->
  mem (suffix name) dir_patterns = false ->
  (forall textbbox order parent img font_size color_arg position opacity s,
     let out := join parent (stem name ++ py "_watermark") in
     fs_lookup out (st_fs s) = None ->
     fs_lookup out
       (st_fs (snd (main textbbox order (InFile (mkpath parent name) img) font_size color_arg
                         position opacity s))) = Some KDir) /\
  (forall order listing img, incl order supported_formats ->
     ~ In (name, img) (image_files order listing)).
Proof.
  intros name Hsingle Hmixed. split.
  - intros tb order parent img fsz ca pos op s out Hout.
    assert (fs_lookup out (st_fs s) <> Some KFile) as Hnf by (rewrite Hout; discriminate).
    destruct (mkdir_exist_ok_spec out s Hnf) as (s1 & Hm & Hfs & _).
    unfold main. cbn [p_name p_parent]. rewrite Hsingle. cbn [negb].
    fold out. unfold bind at 1. rewrite Hm. unfold try_except.
    destruct (add_watermark_opath tb (path_str (mkpath parent name)) img (join out name) fsz
                (parse_color ca) pos op s1) as (e & He & _ & Hfs2).
    destruct (add_watermark tb (path_str (mkpath parent name)) img (OPath (join out name)) fsz
                (parse_color ca) pos op s1) as [r s2] eqn:Ea.
    simpl in He, Hfs2. subst r. unfold bind. rewrite Ea. simpl. rewrite Hfs2. exact Hfs.
  - intros order listing img Hincl Hin.
    apply in_image_files in Hin as [_ (e & He & Hend)]. apply Hincl in He.
    destruct (supported_variants_in_patterns e He) as [Hp1 Hp2].
    assert (suffix name <> []) as Hne by (intro Hn; rewrite Hn in Hsingle; discriminate).
    simpl in Hend. destruct Hend as [Hend|Hend].
    + rewrite (endswith_pattern_suffix name e Hp1 Hend Hne) in Hmixed.
      rewrite (mem_In e dir_patterns Hp1) in Hmixed. discriminate.
    + rewrite (endswith_pattern_suffix name (str_upper e) Hp2 Hend Hne) in Hmixed.
      rewrite (mem_In _ dir_patterns Hp2) in Hmixed. discriminate.
Qed.

Lemma mixed_case_extension_asymmetry_witness :
  mem (str_lower (suffix (py "beach.JpG"))) supported_formats = true /\
  mem (suffix (py "beach.JpG")) dir_patterns = false /\
  ~ In (py "beach.JpG", ImgCorrupt) (image_files supported_formats [(py "beach.JpG", ImgCorrupt)]).
Proof.
  assert (H1 : mem (str_lower (suffix (py "beach.JpG"))) supported_formats = true) by (vm_compute; reflexivity).
  assert (H2 : mem (suffix (py "beach.JpG")) dir_patterns = false) by (vm_compute; reflexivity).
  split; [exact H1|]. split; [exact H2|].
  apply (proj2 (mixed_case_extension_asymmetry (py "beach.JpG") H1 H2)).
  intros x Hx; exact Hx.
Defined.

(** ** Directory mode: which files, and the tally *)

Lemma flat_map_app_perm {A B} : forall (f g : A -> list B) (l : list A),
  Permutation (flat_map (fun a => f a ++ g a) l) (flat_map f l ++ flat_map g l).
Proof.
  intros f g l. induction l as [|a l IH]; simpl; [constructor|].
  rewrite <- !app_assoc. apply Permutation_app_head.
  rewrite IH. apply Permutation_app_swap_app.
Qed.

Lemma flat_map_single {A B} : forall (b : A -> bool) (x : B) (l : list A),
  flat_map (fun a => if b a then [x] else []) l = repeat x (List.length (filter b l)).
Proof.
  intros b x l. induction l as [|a l IH]; simpl; [reflexivity|].
  destruct (b a); simpl; rewrite IH; reflexivity.
Qed.

Lemma existsb_filter_length {A} : forall (f : A -> bool) l,
  existsb f l = (0 <? List.length (filter f l)).
Proof.
  intros f l. induction l as [|a l IH]; simpl; [reflexivity|].
  destruct (f a); simpl; [reflexivity|exact IH].
Qed.

Lemma filter_at_most_one {A} : forall (f : A -> bool) l,
  NoDup l -> (forall a b, In a l -> In b l -> f a = true -> f b = true -> a = b) ->
  List.length (filter f l) <= 1.
Proof.
  intros f l Hnd Huniq. induction l as [|a l IH]; simpl; [lia|].
  inversion Hnd as [|? ? Hna Hnd']; subst.
  destruct (f a) eqn:Ea.
  - destruct (filter f l) as [|b r] eqn:Ef; simpl; [lia|].
    exfalso. assert (In b (filter f l)) as Hb by (rewrite Ef; left; reflexivity).
    apply filter_In in Hb as [Hbl Hfb].
    assert (a = b) by (apply Huniq; simpl; auto). subst b. contradiction.
  - apply IH; [exact Hnd'|]. intros; apply Huniq; simpl; auto.
Qed.

(** Two patterns that are suffixes of one name: the shorter is a suffix of
    the longer. *)
Lemma endswith_both : forall n a b, endswith n a = true -> endswith n b = true ->
  List.length a <= List.length b -> endswith b a = true.
Proof.
  intros n a b Ha Hb Hl. apply endswith_iff in Ha as [t Ht]. apply endswith_iff in Hb as [u Hu].
  apply endswith_iff. subst n.
  destruct (app_eq_app t a u b Hu) as [l [[_ Hb]|[_ Ha]]].
  - exists l. exact Hb.
  - subst a. rewrite length_app in Hl. destruct l; simpl in Hl; [|lia].
    exists []. reflexivity.
Qed.

Lemma dir_patterns_NoDup : NoDup dir_patterns.
Proof.
  unfold dir_patterns. simpl.
  repeat constructor; simpl; intro H; repeat (destruct H as [H|H]; [discriminate H|]); exact H.
Qed.

(** No pattern is a suffix of another one. *)
Lemma dir_patterns_suffix_free :
  forallb (fun a => forallb (fun b => negb (endswith b a) || str_eqb a b) dir_patterns) dir_patterns
  = true.
Proof. vm_compute. reflexivity. Qed.

Lemma dir_patterns_at_most_one : forall n, List.length (filter (endswith n) dir_patterns) <= 1.
Proof.
  intro n. apply filter_at_most_one; [exact dir_patterns_NoDup|].
  intros a b Ha Hb Hna Hnb.
  pose proof dir_patterns_suffix_free as Hsf.
  rewrite forallb_forall in Hsf.
  destruct (Nat.le_ge_cases (List.length a) (List.length b)) as [Hl|Hl].
  - pose proof (endswith_both n a b Hna Hnb Hl) as E.
    pose proof (Hsf a Ha) as Ha'. rewrite forallb_forall in Ha'. specialize (Ha' b Hb).
    rewrite E in Ha'. simpl in Ha'. apply str_eqb_true. exact Ha'.
  - pose proof (endswith_both n b a Hnb Hna Hl) as E.
    pose proof (Hsf b Hb) as Hb'. rewrite forallb_forall in Hb'. specialize (Hb' a Ha).
    rewrite E in Hb'. simpl in Hb'. symmetry. apply str_eqb_true. exact Hb'.
Qed.

Lemma glob_flat_map_perm : forall pats listing,
  (forall n, List.length (filter (endswith n) pats) <= 1) ->
  Permutation (flat_map (glob listing) pats)
              (filter (fun '(n, _) => existsb (endswith n) pats) listing).
Proof.
  intros pats listing Hone. induction listing as [|[n img] listing IH].
  - simpl. induction pats as [|p pats IHp]; simpl; [constructor|].
    apply IHp. intro m. specialize (Hone m). simpl in Hone. destruct (endswith m p); simpl in *; lia.
  - assert (flat_map (glob ((n, img) :: listing)) pats
            = flat_map (fun p => (if endswith n p then [(n, img)] else []) ++ glob listing p) pats) as E.
    { apply flat_map_ext. intro p. unfold glob. simpl. destruct (endswith n p); reflexivity. }
    rewrite E, flat_map_app_perm, flat_map_single, IH. simpl.
    rewrite existsb_filter_length. specialize (Hone n).
    destruct (List.length (filter (endswith n) pats)) as [|[|k]]; simpl; [reflexivity|reflexivity|lia].
Qed.

Lemma image_files_supported : forall listing,
  image_files supported_formats listing = flat_map (glob listing) dir_patterns.
Proof.
  intro listing. unfold image_files, dir_patterns. simpl. rewrite <- !app_assoc. reflexivity.
Qed.

(** The files directory mode works on are those whose name ends in one of
    the twelve patterns, each once, whatever the set's iteration order. *)
Lemma image_files_perm : forall order listing,
  Permutation order supported_formats ->
  Permutation (image_files order listing) (filter (fun '(n, _) => dir_match n) listing).
Proof.
  intros order listing Hp. unfold image_files.
  rewrite (Permutation_flat_map (fun ext => glob listing ext ++ glob listing (str_upper ext)) Hp).
  fold (image_files supported_formats listing). rewrite image_files_supported.
  unfold dir_match. apply glob_flat_map_perm. apply dir_patterns_at_most_one.
Qed.


Lemma get_shooting_date_log : forall img s, exists r l,
  get_shooting_date img s = (inr r, mkst (st_fs s) (st_log s ++ l) (st_drawn s) (st_saved s)) /\
  forallb (fun m => negb (is_file_failed m)) l = true.
Proof.
  intros img s. destruct img as [|w h md].
  - eexists _, _. split; reflexivity.
  - destruct md as [| |d]; simpl.
    + eexists _, _. split; reflexivity.
    + exists None, []. rewrite app_nil_r. destruct s; split; reflexivity.
    + destruct (scan_exif d) as [x|e|].
      * exists (Some x), []. rewrite app_nil_r. destruct s; split; reflexivity.
      * eexists _, _. split; reflexivity.
      * exists None, []. rewrite app_nil_r. destruct s; split; reflexivity.
Qed.

(** [add_watermark] only appends to the output, and never a per-file
    failure line (that one belongs to [process_directory]). *)
Lemma add_watermark_log : forall textbbox image_path img output_path font_size color position opacity s,
  exists l,
  st_log (snd (add_watermark textbbox image_path img output_path font_size color position opacity s))
  = st_log s ++ l /\ forallb (fun m => negb (is_file_failed m)) l = true.
Proof.
  intros tb ip img out fsz col pos op s.
  unfold add_watermark, try_except, bind.
  destruct img as [|w h md]; [eexists; split; reflexivity|].
  destruct (get_shooting_date_log (ImgOk w h md) s) as (r & l0 & Hg & Hl0). rewrite Hg.
  destruct r as [d|]; simpl; destruct (tb _ fsz) as [[[b0 b1] b2] b3]; unfold draw;
    destruct (fill_ok _); destruct out; simpl;
    (eexists; split; [rewrite <- !app_assoc; reflexivity|]);
    rewrite !forallb_app, Hl0; reflexivity.
Qed.


Lemma count_failed_app : forall l1 l2, count_failed (l1 ++ l2) = count_failed l1 + count_failed l2.
Proof. intros. unfold count_failed. rewrite filter_app, length_app. reflexivity. Qed.

Lemma count_failed_clean : forall l, forallb (fun m => negb (is_file_failed m)) l = true -> count_failed l = 0.
Proof.
  induction l as [|m l IH]; simpl; [reflexivity|]. intro H. apply andb_prop in H as [H1 H2].
  unfold count_failed. simpl. destruct (is_file_failed m); [discriminate|]. apply IH, H2.
Qed.

(** The per-file loop never raises: each file either counts as a success or
    prints one failure line, and the count of successes is at most the
    number of files. *)
Lemma process_files_spec : forall textbbox output_dir files font_size color position opacity acc s,
  exists k l s',
    process_files textbbox output_dir files font_size color position opacity acc s = (inr (acc + k), s') /\
    st_log s' = st_log s ++ l /\ k <= List.length files /\ count_failed l + k = List.length files.
Proof.
  intros tb out files fsz col pos op. induction files as [|[n img] files IH]; intros acc s.
  - exists 0, [], s. rewrite Nat.add_0_r, app_nil_r. repeat split. simpl. lia.
  - simpl. unfold try_except, bind at 2.
    destruct (add_watermark_log tb n img (OPath (join out n)) fsz col pos op s) as (l1 & Hl1 & Hc1).
    unfold bind at 1.
    destruct (add_watermark tb n img (OPath (join out n)) fsz col pos op s) as [[e|[]] s1] eqn:Ea;
      simpl in Hl1.
    + unfold print at 1. simpl.
      destruct (IH acc (mkst (st_fs s1) (st_log s1 ++ [MFileFailed n e]) (st_drawn s1) (st_saved s1)))
        as (k & l & s' & Hr & Hl & Hk & Hcnt).
      exists k, (l1 ++ [MFileFailed n e] ++ l), s'. rewrite Hr. simpl in Hl.
      split; [reflexivity|]. split; [rewrite Hl, Hl1, <- !app_assoc; reflexivity|].
      rewrite !count_failed_app, (count_failed_clean l1 Hc1). unfold count_failed in *. simpl. lia.
    + unfold ret. simpl.
      destruct (IH (S acc) s1) as (k & l & s' & Hr & Hl & Hk & Hcnt).
      exists (S k), (l1 ++ l), s'. rewrite Hr, Nat.add_succ_r.
      split; [reflexivity|]. split; [rewrite Hl, Hl1, <- app_assoc; reflexivity|].
      rewrite count_failed_app, (count_failed_clean l1 Hc1). simpl. lia.
Qed.

(** [C2] (as amended) A directory run, whatever the iteration order of the
    extension set and provided the output directory can be made: the files
    worked on are exactly, each once, the listing entries whose name ends in
    a supported extension written all-lowercase or all-uppercase (their
    number is N); no per-file failure escapes the run; with N = 0 the run
    prints that nothing was found; otherwise it prints one failure line per
    failed file and the final tally [success_count/N], with
    [success_count <= N] and [success_count] plus the failures equal to N. *)
Theorem process_directory_tally : forall textbbox order input_path listing font_size color position opacity s,
  Permutation order supported_formats ->
  fs_lookup (output_dir_of input_path) (st_fs s) <> Some KFile ->
  let supported := filter (fun '(n, _) => dir_match n) listing in
  let N := List.length supported in
  let out := output_dir_of input_path in
  let r := process_directory textbbox order true input_path listing font_size color position opacity s in
  Permutation (image_files order listing) supported /\
  fst r = inr tt /\
  (N = 0 -> st_log (snd r) = st_log s ++ [MOutDir out; MNoFiles]) /\
  (N <> 0 -> exists success_count l,
     success_count <= N /\ count_failed l + success_count = N /\
     st_log (snd r) = st_log s ++ [MOutDir out; MFound N] ++ l ++ [MDone success_count N; MOutDir out]).
Proof.
  intros tb order ip listing fsz col pos op s Hord Hnf supported N out r.
  pose proof (image_files_perm order listing Hord) as Hperm. fold supported in Hperm.
  pose proof (Permutation_length Hperm) as HN. fold N in HN.
  destruct (mkdir_exist_ok_spec (output_dir_of ip) s Hnf) as (s1 & Hm & _ & Hlog & _).
  split; [exact Hperm|].
  subst r. unfold process_directory. cbn [negb]. fold out in Hm |- *.
  unfold bind. rewrite Hm. unfold print.
  destruct (image_files order listing) as [|f fs] eqn:Ef.
  - simpl in HN. simpl. rewrite Hlog. split; [reflexivity|]. split.
    + intros _. rewrite <- app_assoc. reflexivity.
    + intro Hn. exfalso. apply Hn. symmetry. exact HN.
  - cbv iota beta.
    match goal with |- context [process_files ?a ?b ?c ?d ?e ?f ?g ?h ?st] =>
      destruct (process_files_spec a b c d e f g h st) as (k & l & s' & Hr & Hl & Hk & Hc); rewrite Hr
    end.
    rewrite HN in Hk, Hc |- *. simpl. simpl in Hl. rewrite Hlog in Hl.
    split; [reflexivity|]. split.
    + intro H0. rewrite <- HN in H0. discriminate H0.
    + intros _. exists k, l. split; [exact Hk|]. split; [exact Hc|].
      rewrite Hl. simpl in HN. rewrite HN. rewrite <- !app_assoc. reflexivity.
Qed.

Lemma process_directory_tally_witness :
  Permutation supported_formats supported_formats /\
  fs_lookup (output_dir_of (mkpath (py "/home") (py "trip"))) [] <> Some KFile /\
  fst (process_directory (fun t _ => (0, 0, 10, 10)%Z) supported_formats true
         (mkpath (py "/home") (py "trip"))
         [(py "a.jpg", ImgOk 640 480 ExifNone); (py "b.txt", ImgCorrupt); (py "c.PNG", ImgCorrupt)]
         36%Z white (py "bottom-right") (4 # 5) (mkst [] [] [] [])) = inr tt.
Proof.
  assert (Hp : Permutation supported_formats supported_formats) by apply Permutation_refl.
  assert (Hf : fs_lookup (output_dir_of (mkpath (py "/home") (py "trip"))) [] <> Some KFile)
    by (vm_compute; discriminate).
  split; [exact Hp|]. split; [exact Hf|].
  exact (proj1 (proj2 (process_directory_tally (fun t _ => (0, 0, 10, 10)%Z) supported_formats
           (mkpath (py "/home") (py "trip"))
           [(py "a.jpg", ImgOk 640 480 ExifNone); (py "b.txt", ImgCorrupt); (py "c.PNG", ImgCorrupt)]
           36%Z white (py "bottom-right") (4 # 5) (mkst [] [] [] []) Hp Hf))).
Defined.

(** [C2] as stated fails: a file whose extension is supported
    case-insensitively (as single-file mode reads it) but in mixed case is
    not among the files of a directory run, which finds nothing and stops. *)
Lemma process_directory_mixed_case_counterexample :
  mem (str_lower (suffix (py "IMG_2.Jpg"))) supported_formats = true /\
  st_log (snd (process_directory (fun t _ => (0, 0, 10, 10)%Z) supported_formats true
                 (mkpath (py "/home") (py "trip")) [(py "IMG_2.Jpg", ImgOk 640 480 ExifNone)]
                 36%Z white (py "bottom-right") (4 # 5) (mkst [] [] [] [])))
  = [MOutDir (output_dir_of (mkpath (py "/home") (py "trip"))); MNoFiles].
Proof. split; vm_compute; reflexivity. Qed.

(** ** Colour parsing *)

Lemma dv_digit_char : forall d, d < 10 -> dv (digit_char d) = Some d.
Proof. intros d Hd. do 10 (destruct d as [|d]; [reflexivity|]). lia. Qed.

Lemma digit_of_digit_char : forall d, d < 10 -> digit_of 10 (digit_char d) = Some (Z.of_nat d).
Proof. intros d Hd. do 10 (destruct d as [|d]; [reflexivity|]). lia. Qed.

Lemma is_space_digit_char : forall d, d < 10 -> is_space (digit_char d) = false.
Proof. intros d Hd. do 10 (destruct d as [|d]; [reflexivity|]). lia. Qed.

Lemma int_space_digit_char : forall d, d < 10 -> int_space (digit_char d) = false.
Proof. intros d Hd. do 10 (destruct d as [|d]; [reflexivity|]). lia. Qed.

(** A non-digit character is not the character of a digit. *)
Lemma ascii_eqb_digit_char : forall c d, d < 10 -> dv c = None -> ascii_eqb c (digit_char d) = false.
Proof.
  intros c d Hd Hc. destruct (ascii_eqb c (digit_char d)) eqn:E; [|reflexivity].
  apply ascii_eqb_true in E. subst c. rewrite dv_digit_char in Hc by exact Hd. discriminate.
Qed.


Lemma ndigits_aux_value : forall f n acc,
  fold_left gZ (ndigits_aux f n acc) 0%Z = fold_left gZ acc (Z.of_nat n).
Proof.
  induction f as [|f IH]; intros n acc; cbn [ndigits_aux fold_left]; [reflexivity|].
  destruct (n <? 10); [reflexivity|].
  rewrite IH. cbn [fold_left]. f_equal. unfold gZ.
  pose proof (Nat.div_mod n 10 ltac:(lia)) as E. lia.
Qed.

Lemma ndigits_aux_digits : forall f n acc, n <= f -> Forall (fun d => d < 10) acc ->
  Forall (fun d => d < 10) (ndigits_aux f n acc).
Proof.
  induction f as [|f IH]; intros n acc Hn Hacc; cbn [ndigits_aux].
  - constructor; [lia|exact Hacc].
  - destruct (n <? 10) eqn:E.
    + apply Nat.ltb_lt in E. constructor; [lia|exact Hacc].
    + apply Nat.ltb_ge in E. apply IH.
      * assert (n / 10 < n) by (apply Nat.div_lt; lia). lia.
      * constructor; [apply Nat.mod_upper_bound; lia|exact Hacc].
Qed.

Lemma ndigits_aux_cons : forall f n acc, exists d ds, ndigits_aux f n acc = d :: ds.
Proof.
  induction f as [|f IH]; intros n acc; simpl; [eauto|].
  destruct (n <? 10); [eauto|apply IH].
Qed.

Lemma digits_tail_digits : forall ds acc, Forall (fun d => d < 10) ds ->
  digits_tail 10 (map digit_char ds) acc = Some (fold_left gZ ds acc).
Proof.
  induction ds as [|d ds IH]; intros acc H; [reflexivity|].
  inversion H as [|? ? Hd Hds]; subst.
  cbn [map digits_tail fold_left].
  rewrite digit_of_digit_char by exact Hd. apply IH, Hds.
Qed.

Lemma py_int10_digit_head : forall d r, d < 10 ->
  py_int 10 (digit_char d :: r) = digits_tail 10 r (Z.of_nat d).
Proof.
  intros d r Hd.
  do 10 (destruct d as [|d];
         [unfold py_int, digit_char; simpl; destruct (digits_tail 10 r _); reflexivity|]).
  lia.
Qed.

Lemma py_int10_neg_digit_head : forall d r, d < 10 ->
  py_int 10 ("-"%char :: digit_char d :: r) = option_map Z.opp (digits_tail 10 r (Z.of_nat d)).
Proof.
  intros d r Hd.
  do 10 (destruct d as [|d];
         [unfold py_int, digit_char; simpl; destruct (digits_tail 10 r _); reflexivity|]).
  lia.
Qed.

Lemma ndigits_shape : forall n, exists d ds, ndigits n = d :: ds /\ d < 10 /\
  Forall (fun x => x < 10) ds /\ fold_left gZ ds (Z.of_nat d) = Z.of_nat n.
Proof.
  intros n. destruct (ndigits_aux_cons n n []) as (d & ds & E).
  pose proof (ndigits_aux_digits n n [] (le_n n) (Forall_nil _)) as Hf.
  pose proof (ndigits_aux_value n n []) as Hv.
  unfold ndigits. rewrite E in *. inversion Hf; subst.
  exists d, ds. repeat split; assumption.
Qed.

(** [int(str(z))] is [z]. *)
Lemma py_int10_repr : forall z, py_int 10 (z_repr z) = Some z.
Proof.
  intros z. unfold z_repr. destruct (z <? 0)%Z eqn:E.
  - destruct (ndigits_shape (Z.to_nat (- z))) as (d & ds & Hn & Hd & Hds & Hv).
    rewrite Hn. cbn [map]. rewrite py_int10_neg_digit_head by exact Hd.
    rewrite digits_tail_digits by exact Hds. simpl. rewrite Hv. f_equal. lia.
  - destruct (ndigits_shape (Z.to_nat z)) as (d & ds & Hn & Hd & Hds & Hv).
    rewrite Hn. cbn [map]. rewrite py_int10_digit_head by exact Hd.
    rewrite digits_tail_digits by exact Hds. rewrite Hv. f_equal. lia.
Qed.

Lemma existsb_map_digit_char : forall c ds, dv c = None -> Forall (fun d => d < 10) ds ->
  existsb (ascii_eqb c) (map digit_char ds) = false.
Proof.
  intros c ds Hc H. induction H as [|d ds Hd _ IH]; [reflexivity|].
  cbn [map existsb]. rewrite ascii_eqb_digit_char by assumption. exact IH.
Qed.

(** [str(z)] has no comma and does not start with [#]. *)
Lemma z_repr_shape : forall z, existsb (ascii_eqb ",") (z_repr z) = false /\
  exists c r, z_repr z = c :: r /\ ascii_eqb "#" c = false.
Proof.
  intros z. unfold z_repr. destruct (z <? 0)%Z.
  - destruct (ndigits_shape (Z.to_nat (- z))) as (d & ds & Hn & Hd & Hds & _).
    rewrite Hn. split.
    + cbn [existsb]. apply existsb_map_digit_char; [reflexivity|constructor; assumption].
    + eexists _, _. split; reflexivity.
  - destruct (ndigits_shape (Z.to_nat z)) as (d & ds & Hn & Hd & Hds & _).
    rewrite Hn. split.
    + apply existsb_map_digit_char; [reflexivity|constructor; assumption].
    + eexists _, _. split; [reflexivity|]. apply ascii_eqb_digit_char; [exact Hd|reflexivity].
Qed.

Lemma split_comma_aux_app : forall p r cur, existsb (ascii_eqb ",") p = false ->
  split_comma_aux (p ++ r) cur = split_comma_aux r (rev p ++ cur).
Proof.
  induction p as [|c p IH]; intros r cur H; [reflexivity|].
  cbn [existsb] in H. apply orb_false_iff in H as [H1 H2].
  cbn [app split_comma_aux].
  replace (ascii_eqb c ",") with false.
  - rewrite IH by exact H2. cbn [rev]. rewrite <- app_assoc. reflexivity.
  - destruct (ascii_eqb c ",") eqn:E; [|reflexivity].
    apply ascii_eqb_true in E. subst c. discriminate.
Qed.

(** [','.join(l).split(',')] is [l] when no piece has a comma. *)
Lemma split_comma_join : forall l, l <> [] ->
  Forall (fun p => existsb (ascii_eqb ",") p = false) l -> split_comma (join_comma l) = l.
Proof.
  unfold split_comma. induction l as [|x l IH]; intros Hne H; [congruence|].
  inversion H as [|? ? Hx Hl]; subst. destruct l as [|y l].
  - cbn [join_comma]. rewrite <- (app_nil_r x) at 1.
    rewrite split_comma_aux_app by exact Hx. simpl. rewrite app_nil_r, rev_involutive. reflexivity.
  - change (join_comma (x :: y :: l)) with (x ++ ","%char :: join_comma (y :: l)).
    rewrite split_comma_aux_app by exact Hx. cbn [split_comma_aux ascii_eqb].
    rewrite app_nil_r, rev_involutive, IH by (congruence || assumption). reflexivity.
Qed.

Lemma join_comma_has_comma : forall x y l, existsb (ascii_eqb ",") (join_comma (x :: y :: l)) = true.
Proof.
  intros x y l. change (join_comma (x :: y :: l)) with (x ++ ","%char :: join_comma (y :: l)).
  rewrite existsb_app. simpl. apply orb_true_r.
Qed.

Lemma map_all_map : forall (f : pystr -> option Z) g zs, (forall z, f (g z) = Some z) ->
  map_all f (map g zs) = Some zs.
Proof.
  intros f g zs H. induction zs as [|z zs IH]; [reflexivity|].
  cbn [map map_all]. rewrite H, IH. reflexivity.
Qed.

Lemma map_all_fails : forall (f : pystr -> option Z) l p, In p l -> f p = None -> map_all f l = None.
Proof.
  intros f l p Hp Hf. induction l as [|x l IH]; [destruct Hp|].
  cbn [map_all]. destruct Hp as [<-|Hp].
  - rewrite Hf. reflexivity.
  - rewrite (IH Hp). destruct (f x); reflexivity.
Qed.

(** Hexadecimal digits. *)
Lemma hexval_range : forall c v, hexval c = Some v -> (0 <= v < 16)%Z.
Proof.
  intros c v H. unfold hexval in H.
  destruct ((48 <=? nat_of_ascii c) && (nat_of_ascii c <=? 57)) eqn:E1;
    [|destruct ((97 <=? nat_of_ascii c) && (nat_of_ascii c <=? 102)) eqn:E2;
      [|destruct ((65 <=? nat_of_ascii c) && (nat_of_ascii c <=? 70)) eqn:E3]];
    try discriminate; injection H as <-; apply andb_true_iff in E1 || apply andb_true_iff in E2
    || apply andb_true_iff in E3;
    match goal with Hc : _ /\ _ |- _ => destruct Hc as [Ha Hb] end;
    apply Nat.leb_le in Ha; apply Nat.leb_le in Hb; lia.
Qed.

Lemma digit_of_hex16 : forall c v, hexval c = Some v -> digit_of 16 c = Some v.
Proof.
  intros c v H. unfold digit_of. rewrite H.
  destruct (hexval_range c v H) as [_ Hv]. apply Z.ltb_lt in Hv. rewrite Hv. reflexivity.
Qed.

Lemma hex_not_char : forall c v x, hexval c = Some v -> hexval x = None -> ascii_eqb c x = false.
Proof.
  intros c v x H Hx. destruct (ascii_eqb c x) eqn:E; [|reflexivity].
  apply ascii_eqb_true in E. subst. congruence.
Qed.

Lemma lstrip_hash_hex : forall c r v, hexval c = Some v -> lstrip_hash (c :: r) = c :: r.
Proof.
  intros c r v H. destruct c as [[] [] [] [] [] [] [] []]; try reflexivity.
  vm_compute in H. discriminate.
Qed.

Lemma hex_not_space : forall c v, hexval c = Some v -> int_space c = false.
Proof.
  intros c v H. destruct c as [[] [] [] [] [] [] [] []]; try reflexivity.
  all: vm_compute in H; discriminate.
Qed.

(** [int(a + b, 16)] for two hex digits. *)
Lemma py_int16_pair : forall a b x y, hexval a = Some x -> hexval b = Some y ->
  py_int 16 [a; b] = Some (x * 16 + y)%Z.
Proof.
  intros a b x y Ha Hb.
  pose proof (digit_of_hex16 a x Ha) as Ha16. pose proof (digit_of_hex16 b y Hb) as Hb16.
  pose proof (hex_not_char b y "x" Hb eq_refl) as Hbx.
  pose proof (hex_not_char b y "X" Hb eq_refl) as HbX.
  unfold py_int. cbn [lstrip_space].
  rewrite (hex_not_space a x Ha). clear Hb.
  destruct a as [[] [] [] [] [] [] [] []]; try (vm_compute in Ha; discriminate);
    cbn -[digit_of ascii_eqb]; try rewrite Hbx, HbX; cbn -[digit_of];
    rewrite Ha16; cbn -[digit_of]; rewrite Hb16; reflexivity.
Qed.

Lemma lower_keeps_hash : forall s, startswith s (py "#") = true -> startswith (str_lower s) (py "#") = true.
Proof.
  intros [|c s] H; [discriminate|]. cbn in H. apply andb_true_iff in H as [H _].
  apply ascii_eqb_true in H. subst c. destruct s; reflexivity.
Qed.

Lemma lower_keeps_comma : forall s, existsb (ascii_eqb ",") s = true ->
  existsb (ascii_eqb ",") (str_lower s) = true.
Proof.
  intros s H. apply existsb_exists in H as (c & Hc & E). apply ascii_eqb_true in E. subst c.
  apply existsb_exists. exists ","%char. split; [|reflexivity].
  unfold str_lower. change ","%char with (char_lower ","). apply in_map, Hc.
Qed.

Lemma dict_get_miss : forall k d w, forallb (fun '(n, _) => negb (str_eqb k n)) d = true ->
  dict_get k d w = w.
Proof.
  intros k d w H. induction d as [|[n v] d IH]; [reflexivity|].
  cbn in H |- *. apply andb_true_iff in H as [H1 H2].
  destruct (str_eqb k n); [discriminate|]. apply IH, H2.
Qed.

(** [C6] (code bug) [parse_color] does not always return an RGB triple in
    0-255: the comma branch has no length or range check, so [1,2] gives a
    pair, [300,0,0] a component above 255 and [1,2,3,4] a four-tuple, on
    which the later [draw.text] raises [TypeError] and the image fails; and
    [int(_, 16)] accepts a sign, so [#-1-1-1] gives negative components. *)
Lemma parse_color_not_always_rgb_counterexample :
  parse_color (py "1,2") = [1; 2]%Z /\
  parse_color (py "300,0,0") = [300; 0; 0]%Z /\
  parse_color (py "#-1-1-1") = [-1; -1; -1]%Z /\
  parse_color (py "1,2,3,4") = [1; 2; 3; 4]%Z /\
  add_watermark (fun _ _ => (0, 0, 10, 10)%Z) (py "a.jpg") (ImgOk 640 480 ExifNone)
    (OStr (py "a_wm.png")) 36%Z (parse_color (py "1,2,3,4")) (py "center") (1 # 2) (mkst [] [] [] [])
  = (inl TypeError, mkst [] [MNoDate (py "a.jpg"); MProcError (py "a.jpg") TypeError] [] []).
Proof. vm_compute. repeat split; reflexivity. Qed.

(** [X18] [parse_color] never raises. A predefined name, in any
    letter case, gives its table entry; [#RRGGBB] with six hex digits gives
    the three hex pairs, each in 0-255; a comma-joined list of two or more
    ints gives exactly that list, with no length or range check; a failed
    [int] on a hex slice or a comma piece, or an unknown name without [#]
    and comma, gives white. *)
Theorem parse_color_spec :
  (forall s n t, In (n, t) colors -> str_lower s = n -> parse_color s = t) /\
  (forall h1 h2 h3 h4 h5 h6 v1 v2 v3 v4 v5 v6,
     hexval h1 = Some v1 -> hexval h2 = Some v2 -> hexval h3 = Some v3 ->
     hexval h4 = Some v4 -> hexval h5 = Some v5 -> hexval h6 = Some v6 ->
     parse_color ["#"%char; h1; h2; h3; h4; h5; h6] = [v1 * 16 + v2; v3 * 16 + v4; v5 * 16 + v6]%Z /\
     Forall (fun v => 0 <= v <= 255)%Z (parse_color ["#"%char; h1; h2; h3; h4; h5; h6])) /\
  (forall zs, 2 <= List.length zs -> parse_color (join_comma (map z_repr zs)) = zs) /\
  (forall s i, startswith s (py "#") = true -> In i [0; 2; 4] ->
     py_int 16 (slice2 (lstrip_hash s) i) = None -> parse_color s = white) /\
  (forall s p, startswith s (py "#") = false -> existsb (ascii_eqb ",") s = true ->
     In p (split_comma s) -> py_int 10 p = None -> parse_color s = white) /\
  (forall s, startswith s (py "#") = false -> existsb (ascii_eqb ",") s = false ->
     forallb (fun '(n, _) => negb (str_eqb (str_lower s) n)) colors = true -> parse_color s = white).
Proof.
  split; [|split; [|split; [|split; [|split]]]].
  - intros s n t Hin Hl.
    assert (Hn : startswith n (py "#") = false /\ existsb (ascii_eqb ",") n = false /\
                 dict_get n colors white = t)
      by (simpl in Hin; repeat destruct Hin as [Hin|Hin]; try contradiction;
          injection Hin as <- <-; repeat split; reflexivity).
    destruct Hn as (Hn1 & Hn2 & Hn3). unfold parse_color.
    destruct (startswith s (py "#")) eqn:E1.
    { apply lower_keeps_hash in E1. rewrite Hl in E1. congruence. }
    destruct (existsb (ascii_eqb ",") s) eqn:E2.
    { apply lower_keeps_comma in E2. rewrite Hl in E2. congruence. }
    rewrite Hl. exact Hn3.
  - intros h1 h2 h3 h4 h5 h6 v1 v2 v3 v4 v5 v6 H1 H2 H3 H4 H5 H6.
    assert (E : parse_color ["#"%char; h1; h2; h3; h4; h5; h6] = [v1 * 16 + v2; v3 * 16 + v4; v5 * 16 + v6]%Z).
    { unfold parse_color.
      replace (startswith ["#"%char; h1; h2; h3; h4; h5; h6] (py "#")) with true by reflexivity.
      change (lstrip_hash ("#"%char :: [h1; h2; h3; h4; h5; h6])) with (lstrip_hash [h1; h2; h3; h4; h5; h6]).
      rewrite (lstrip_hash_hex h1 _ v1 H1). unfold slice2. cbn [skipn firstn map_all].
      rewrite (py_int16_pair h1 h2 v1 v2 H1 H2), (py_int16_pair h3 h4 v3 v4 H3 H4),
              (py_int16_pair h5 h6 v5 v6 H5 H6).
      reflexivity. }
    split; [exact E|]. rewrite E.
    apply hexval_range in H1, H2, H3, H4, H5, H6.
    repeat constructor; lia.
  - intros zs Hlen. destruct zs as [|z1 [|z2 zs]]; simpl in Hlen; try lia.
    change (map z_repr (z1 :: z2 :: zs)) with (z_repr z1 :: z_repr z2 :: map z_repr zs).
    destruct (z_repr_shape z1) as [_ (c & r & Ez & Ec)].
    assert (Hs : startswith (join_comma (z_repr z1 :: z_repr z2 :: map z_repr zs)) (py "#") = false).
    { change (join_comma (z_repr z1 :: z_repr z2 :: map z_repr zs))
        with (z_repr z1 ++ ","%char :: join_comma (z_repr z2 :: map z_repr zs)).
      rewrite Ez. cbn [app py list_ascii_of_string startswith]. rewrite Ec. reflexivity. }
    unfold parse_color. rewrite Hs, join_comma_has_comma, split_comma_join.
    + change (z_repr z1 :: z_repr z2 :: map z_repr zs) with (map z_repr (z1 :: z2 :: zs)).
      rewrite (map_all_map _ _ _ py_int10_repr). reflexivity.
    + discriminate.
    + change (z_repr z1 :: z_repr z2 :: map z_repr zs) with (map z_repr (z1 :: z2 :: zs)).
      apply Forall_forall. intros p Hp. apply in_map_iff in Hp as (z & <- & _).
      apply z_repr_shape.
  - intros s i Hs Hi Hn. unfold parse_color. rewrite Hs.
    rewrite (map_all_fails _ _ (slice2 (lstrip_hash s) i)); [reflexivity| |exact Hn].
    destruct Hi as [<-|[<-|[<-|[]]]]; simpl; auto.
  - intros s p Hs Hc Hp Hn. unfold parse_color. rewrite Hs, Hc.
    rewrite (map_all_fails _ _ p Hp Hn). reflexivity.
  - intros s Hs Hc Hd. unfold parse_color. rewrite Hs, Hc. apply dict_get_miss, Hd.
Qed.

Lemma parse_color_spec_witness :
  parse_color (py "Red") = [255; 0; 0]%Z /\
  parse_color (py "#1A2b3C") = [26; 43; 60]%Z /\
  parse_color (join_comma (map z_repr [10; -7; 300; 0]%Z)) = [10; -7; 300; 0]%Z /\
  parse_color (py "#12GG34") = white /\ parse_color (py "1,x,3") = white /\
  parse_color (py "purple") = white.
Proof.
  destruct parse_color_spec as (Ha & Hb & Hc & Hd & He & Hf).
  split; [apply (Ha _ (py "red")); [simpl; tauto|reflexivity]|].
  split; [apply (Hb "1"%char "A"%char "2"%char "b"%char "3"%char "C"%char 1 10 2 11 3 12)%Z;
          reflexivity|].
  split; [apply Hc; simpl; lia|].
  split; [apply (Hd _ 2); [reflexivity|simpl; tauto|reflexivity]|].
  split; [apply (He _ (py "x")); [reflexivity|reflexivity|simpl; tauto|reflexivity]|].
  apply Hf; reflexivity.
Defined.

(** ** The timestamp parser on well-formed EXIF text *)

(** [9999] is a large literal (kept abstract by the parser); this equation
    lets [lia] read it. *)
Lemma nat_9999 : 9999 = 9 + 10 * 999.
Proof. reflexivity. Qed.

Lemma re_lit_hit : forall c r, re_lit c (c :: r) = [r].
Proof. intros c r. unfold re_lit. rewrite ascii_eqb_refl. reflexivity. Qed.

Lemma pad4_digits : forall y, y <= 9999 ->
  pad4 y = [digit_char (y / 1000); digit_char (y / 100 mod 10);
            digit_char (y / 10 mod 10); digit_char (y mod 10)] /\
  y / 1000 < 10 /\ y / 100 mod 10 < 10 /\ y / 10 mod 10 < 10 /\ y mod 10 < 10 /\
  1000 * (y / 1000) + 100 * (y / 100 mod 10) + 10 * (y / 10 mod 10) + y mod 10 = y.
Proof.
  intros y Hy. rewrite nat_9999 in Hy. split; [reflexivity|].
  pose proof (Nat.div_mod y 10 ltac:(lia)) as E1.
  pose proof (Nat.div_mod (y / 10) 10 ltac:(lia)) as E2.
  pose proof (Nat.div_mod (y / 100) 10 ltac:(lia)) as E3.
  assert (Q2 : y / 10 / 10 = y / 100) by (rewrite Nat.Div0.div_div by lia; reflexivity).
  assert (Q3 : y / 100 / 10 = y / 1000) by (rewrite Nat.Div0.div_div by lia; reflexivity).
  rewrite Q2 in E2. rewrite Q3 in E3.
  assert (B1 : y / 1000 < 10) by (apply Nat.Div0.div_lt_upper_bound; simpl; lia).
  pose proof (Nat.mod_upper_bound y 10 ltac:(lia)).
  pose proof (Nat.mod_upper_bound (y / 10) 10 ltac:(lia)).
  pose proof (Nat.mod_upper_bound (y / 100) 10 ltac:(lia)).
  repeat split; lia.
Qed.

Lemma re_Y_pad4 : forall y r, y <= 9999 -> re_Y (pad4 y ++ r) = [(y, r)].
Proof.
  intros y r Hy. destruct (pad4_digits y Hy) as (E & H1 & H2 & H3 & H4 & Hv).
  rewrite E. cbn [app re_Y].
  rewrite !dv_digit_char by assumption. rewrite Hv. reflexivity.
Qed.

(** Each two-digit group is read whole by the first alternative that fits it. *)
Ltac pad2_cases n :=
  do 60 (destruct n as [|n]; [first [lia | eexists; reflexivity]|]); lia.

Lemma re_m_pad2 : forall n r, 1 <= n <= 12 -> exists l, re_m (pad2 n ++ r) = (n, r) :: l.
Proof. intros n r Hn. pad2_cases n. Qed.

Lemma re_d_pad2 : forall n r, 1 <= n <= 31 -> exists l, re_d (pad2 n ++ r) = (n, r) :: l.
Proof. intros n r Hn. pad2_cases n. Qed.

Lemma re_H_pad2 : forall n r, n <= 23 -> exists l, re_H (pad2 n ++ r) = (n, r) :: l.
Proof. intros n r Hn. pad2_cases n. Qed.

Lemma re_M_pad2 : forall n r, n <= 59 -> exists l, re_M (pad2 n ++ r) = (n, r) :: l.
Proof. intros n r Hn. pad2_cases n. Qed.

Lemma re_S_pad2 : forall n r, n <= 59 -> exists l, re_S (pad2 n ++ r) = (n, r) :: l.
Proof. intros n r Hn. pad2_cases n. Qed.

Lemma re_ws_pad2 : forall n r, n <= 99 -> re_ws (" "%char :: pad2 n ++ r) = [pad2 n ++ r].
Proof.
  intros n r Hn. unfold re_ws, pad2. cbn [app space_run].
  rewrite is_space_digit_char by (apply Nat.Div0.div_lt_upper_bound; simpl; lia).
  reflexivity.
Qed.

Lemma valid_datetime_ranges : forall t, valid_datetime t = true ->
  1 <= ts_Y t <= 9999 /\ 1 <= ts_m t <= 12 /\ 1 <= ts_d t <= 31 /\
  ts_H t <= 23 /\ ts_M t <= 59 /\ ts_S t <= 59.
Proof.
  intros [y m d h mi se] H. unfold valid_datetime in H. cbn [ts_Y ts_m ts_d ts_H ts_M ts_S] in *.
  repeat match goal with Hc : _ && _ = true |- _ => apply andb_true_iff in Hc as [? ?] end.
  repeat match goal with Hc : (_ <=? _) = true |- _ => apply Nat.leb_le in Hc end.
  assert (days_in_month y m <= 31)
    by (unfold days_in_month; destruct m as [|[|[|[|[|[|[|[|[|[|[|[|[|m]]]]]]]]]]]]];
        try destruct (is_leap y); lia).
  rewrite nat_9999 in *. lia.
Qed.

(** [strptime(stamp_text t, '%Y:%m:%d %H:%M:%S')] is [t] for a valid [t]:
    the first path of the search reads every field whole and consumes all. *)
Lemma re_timestamp_stamp : forall t, valid_datetime t = true ->
  exists l, re_timestamp (stamp_text t) = (t, []) :: l.
Proof.
  intros [y m d h mi se] Hv.
  destruct (valid_datetime_ranges _ Hv) as (HY & Hm & Hd & HH & HM & HS).
  cbn [ts_Y ts_m ts_d ts_H ts_M ts_S] in *.
  unfold re_timestamp, stamp_text. cbn [ts_Y ts_m ts_d ts_H ts_M ts_S].
  replace (pad2 se) with (pad2 se ++ []) by apply app_nil_r.
  rewrite re_Y_pad4 by lia. cbn [flat_map]. rewrite re_lit_hit. cbn [flat_map].
  destruct (re_m_pad2 m (":"%char :: pad2 d ++ " "%char :: pad2 h ++ ":"%char :: pad2 mi ++
            ":"%char :: pad2 se ++ []) Hm) as [l1 E1]. rewrite E1. cbn [flat_map].
  rewrite re_lit_hit. cbn [flat_map].
  destruct (re_d_pad2 d (" "%char :: pad2 h ++ ":"%char :: pad2 mi ++
            ":"%char :: pad2 se ++ []) Hd) as [l2 E2]. rewrite E2. cbn [flat_map].
  rewrite re_ws_pad2 by lia. cbn [flat_map].
  destruct (re_H_pad2 h (":"%char :: pad2 mi ++ ":"%char :: pad2 se ++ []) HH) as [l3 E3].
  rewrite E3. cbn [flat_map]. rewrite re_lit_hit. cbn [flat_map].
  destruct (re_M_pad2 mi (":"%char :: pad2 se ++ []) HM) as [l4 E4].
  rewrite E4. cbn [flat_map]. rewrite re_lit_hit. cbn [flat_map].
  destruct (re_S_pad2 se [] HS) as [l5 E5]. rewrite E5. cbn [map app].
  eexists. reflexivity.
Qed.

Lemma strptime_stamp : forall t, valid_datetime t = true -> strptime_ts (VStr (stamp_text t)) = inr t.
Proof.
  intros t Hv. destruct (re_timestamp_stamp t Hv) as [l E].
  unfold strptime_ts. rewrite E, Hv. reflexivity.
Qed.

(** ** The search over the candidates *)

Lemma strptime_str_error : forall str e, strptime_ts (VStr str) = inl e -> e = ValueError.
Proof.
  intros str e H. unfold strptime_ts in H.
  destruct (re_timestamp str) as [|[t [|c r]] l]; try (injection H; auto).
  destruct (valid_datetime t); [discriminate|injection H; auto].
Qed.

Lemma scan_tag_first : forall name d,
  (forall id v, In (id, v) d -> tag_eq (tag_of id) name = true -> exists str, v = VStr str) ->
  scan_tag name d =
  match first_ok (filter (fun '(id, _) => tag_eq (tag_of id) name) d) with
  | Some t => Found (strftime_date t)
  | None => Exhausted
  end.
Proof.
  intros name d. induction d as [|[id v] d IH]; intros H; [reflexivity|].
  cbn [scan_tag filter].
  destruct (tag_eq (tag_of id) name) eqn:Et.
  - destruct (H id v (or_introl eq_refl) Et) as [str ->]. cbn [first_ok].
    destruct (strptime_ts (VStr str)) as [e|t] eqn:Es; [|reflexivity].
    rewrite (strptime_str_error str e Es). apply IH.
    intros id' v' Hin. apply H. right. exact Hin.
  - apply IH. intros id' v' Hin. apply H. right. exact Hin.
Qed.

Lemma first_ok_app : forall l1 l2,
  first_ok (l1 ++ l2) = match first_ok l1 with Some t => Some t | None => first_ok l2 end.
Proof.
  induction l1 as [|[id v] l1 IH]; intros l2; [reflexivity|].
  cbn [app first_ok]. destruct (strptime_ts v); [apply IH|reflexivity].
Qed.

(** [C1] (counterexample) The search is not a check of the fixed pattern:
    [strptime] takes the looser [2023:1:5 1:2:3] (single-digit fields) and
    the date comes back zero-padded, not unchanged; and the pattern-shaped
    [2023:02:30 10:00:00], an impossible date, is skipped, so an EXIF mapping
    whose only timestamp matches the pattern gives no date. *)
Lemma shooting_date_loose_and_impossible_counterexample :
  get_shooting_date (ImgOk 0 0 (ExifDict [(306%Z, VStr (py "2023:1:5 1:2:3"))])) (mkst [] [] [] [])
    = (inr (Some (py "2023-01-05")), mkst [] [] [] []) /\
  get_shooting_date (ImgOk 0 0 (ExifDict [(306%Z, VStr (py "2023:02:30 10:00:00"))])) (mkst [] [] [] [])
    = (inr None, mkst [] [] [] []).
Proof. split; vm_compute; reflexivity. Qed.

(** [C1] (amended) A well-formed EXIF timestamp [YYYY:MM:DD HH:MM:SS] of a
    valid date and time is parsed to its fields, and its date is returned as
    the characters of the date portion with [-] separators. When every value
    of the three timestamp tags is a string, [get_shooting_date] returns,
    without output, the date of the first candidate [strptime] accepts, in
    the order [DateTime], [DateTimeOriginal], [DateTimeDigitized] (each in
    dictionary order), skipping every candidate it rejects; [None] when none
    is accepted. *)
Theorem shooting_date_first_accepted :
  (forall t, valid_datetime t = true ->
     strptime_ts (VStr (stamp_text t)) = inr t /\
     strftime_date t = firstn 4 (stamp_text t) ++ "-"%char :: firstn 2 (skipn 5 (stamp_text t))
                       ++ "-"%char :: firstn 2 (skipn 8 (stamp_text t))) /\
  (forall w h d s,
     (forall id v, In (id, v) d -> is_date_tag id = true -> exists str, v = VStr str) ->
     get_shooting_date (ImgOk w h (ExifDict d)) s
       = (inr (option_map strftime_date (first_ok (candidates d))), s)).
Proof.
  split.
  - intros t Hv. split; [apply strptime_stamp, Hv|].
    unfold stamp_text, strftime_date, pad4, pad2. reflexivity.
  - intros w h d s H.
    assert (Hs : forall name, In name [py "DateTime"; py "DateTimeOriginal"; py "DateTimeDigitized"] ->
              scan_tag name d =
              match first_ok (filter (fun '(id, _) => tag_eq (tag_of id) name) d) with
              | Some t => Found (strftime_date t)
              | None => Exhausted
              end).
    { intros name Hn. apply scan_tag_first. intros id v Hin Ht. apply (H id v Hin).
      unfold is_date_tag. apply existsb_exists. exists name. split; assumption. }
    unfold get_shooting_date. cbv [scan_exif date_tags fold_left].
    rewrite (Hs (py "DateTime")), (Hs (py "DateTimeOriginal")), (Hs (py "DateTimeDigitized"))
      by (simpl; tauto).
    unfold candidates. cbn [flat_map]. rewrite app_nil_r, !first_ok_app.
    destruct (first_ok (filter _ d)); [reflexivity|].
    destruct (first_ok (filter _ d)); [reflexivity|].
    destruct (first_ok (filter _ d)); reflexivity.
Qed.

Lemma shooting_date_first_accepted_witness :
  strptime_ts (VStr (stamp_text (mkts 2023 10 15 14 30 25))) = inr (mkts 2023 10 15 14 30 25) /\
  get_shooting_date (ImgOk 640 480 (ExifDict [(306%Z, VStr (py "garbage"));
                                             (36867%Z, VStr (stamp_text (mkts 2023 10 15 14 30 25)))]))
    (mkst [] [] [] [])
  = (inr (option_map strftime_date (first_ok (candidates [(306%Z, VStr (py "garbage"));
       (36867%Z, VStr (stamp_text (mkts 2023 10 15 14 30 25)))]))), mkst [] [] [] []).
Proof.
  destruct shooting_date_first_accepted as [HA HB]. split.
  - apply (HA (mkts 2023 10 15 14 30 25)). reflexivity.
  - apply HB. intros id v Hin _. simpl in Hin.
    destruct Hin as [E|[E|[]]]; injection E as <- <-; eexists; reflexivity.
Defined.

(* ================================================================== *)
(** * Further properties of the code *)

(** ** The date string [get_shooting_date] returns *)

Lemma strptime_valid : forall v t, strptime_ts v = inr t -> valid_datetime t = true.
Proof.
  intros v t H. destruct v as [str| |]; try discriminate. unfold strptime_ts in H.
  destruct (re_timestamp str) as [|[t' [|c r]] l]; try discriminate.
  destruct (valid_datetime t') eqn:E; [injection H as <-; exact E|discriminate].
Qed.

Lemma scan_tag_found : forall name d x, scan_tag name d = Found x ->
  exists t, valid_datetime t = true /\ x = strftime_date t.
Proof.
  intros name d x. induction d as [|[id v] d IH]; intros H; [discriminate|].
  cbn [scan_tag] in H. destruct (tag_eq (tag_of id) name); [|apply IH, H].
  destruct (strptime_ts v) as [[]|t] eqn:E; try discriminate; [apply IH, H|].
  injection H as <-. exists t. split; [apply (strptime_valid v t E)|reflexivity].
Qed.

Lemma scan_exif_found : forall d x, scan_exif d = Found x ->
  exists t, valid_datetime t = true /\ x = strftime_date t.
Proof.
  intros d x H. cbv [scan_exif date_tags fold_left] in H.
  destruct (scan_tag (py "DateTime") d) eqn:E1; [injection H as <-; apply (scan_tag_found _ _ _ E1)|discriminate|].
  destruct (scan_tag (py "DateTimeOriginal") d) eqn:E2;
    [injection H as <-; apply (scan_tag_found _ _ _ E2)|discriminate|].
  apply (scan_tag_found _ _ _ H).
Qed.

Lemma get_shooting_date_some : forall img s x s',
  get_shooting_date img s = (inr (Some x), s') -> exists t, valid_datetime t = true /\ x = strftime_date t.
Proof.
  intros img s x s' H. destruct img as [|w h [| |d]]; try discriminate.
  simpl in H. destruct (scan_exif d) eqn:E; try discriminate.
  injection H as <- _. apply (scan_exif_found d), E.
Qed.

Lemma pad2_digits : forall n, n <= 99 ->
  pad2 n = [digit_char (n / 10); digit_char (n mod 10)] /\ n / 10 < 10 /\ n mod 10 < 10 /\
  10 * (n / 10) + n mod 10 = n.
Proof.
  intros n Hn. split; [reflexivity|].
  pose proof (Nat.div_mod n 10 ltac:(lia)).
  pose proof (Nat.mod_upper_bound n 10 ltac:(lia)).
  assert (n / 10 < 10) by (apply Nat.Div0.div_lt_upper_bound; simpl; lia).
  repeat split; lia.
Qed.

(** [X1] The date [get_shooting_date] returns is always ten characters
    [YYYY-MM-DD] of decimal digits: a year from 0001, a month 01-12 and a
    day that exists in that month. *)
Theorem shooting_date_format : forall img s x s',
  get_shooting_date img s = (inr (Some x), s') ->
  exists y1 y2 y3 y4 m1 m2 d1 d2,
    Forall (fun k => k < 10) [y1; y2; y3; y4; m1; m2; d1; d2] /\
    x = map digit_char [y1; y2; y3; y4] ++ "-"%char :: map digit_char [m1; m2] ++
        "-"%char :: map digit_char [d1; d2] /\
    1 <= 1000 * y1 + 100 * y2 + 10 * y3 + y4 /\ 1 <= 10 * m1 + m2 <= 12 /\
    1 <= 10 * d1 + d2 <= days_in_month (1000 * y1 + 100 * y2 + 10 * y3 + y4) (10 * m1 + m2).
Proof.
  intros img s x s' H. destruct (get_shooting_date_some img s x s' H) as (t & Hv & ->).
  pose proof (valid_datetime_ranges t Hv) as (HY & Hm & Hd & _).
  assert (Hdm : 1 <= ts_d t <= days_in_month (ts_Y t) (ts_m t)).
  { destruct t as [y m d h mi se]. unfold valid_datetime in Hv. cbn [ts_Y ts_m ts_d ts_H ts_M ts_S] in *.
    repeat match goal with Hc : _ && _ = true |- _ => apply andb_true_iff in Hc as [? ?] end.
    repeat match goal with Hc : (_ <=? _) = true |- _ => apply Nat.leb_le in Hc end. lia. }
  destruct (pad4_digits (ts_Y t) ltac:(lia)) as (E4 & A1 & A2 & A3 & A4 & Av).
  destruct (pad2_digits (ts_m t) ltac:(lia)) as (Em & B1 & B2 & Bv).
  destruct (pad2_digits (ts_d t) ltac:(lia)) as (Ed & C1 & C2 & Cv).
  exists (ts_Y t / 1000), (ts_Y t / 100 mod 10), (ts_Y t / 10 mod 10), (ts_Y t mod 10),
    (ts_m t / 10), (ts_m t mod 10), (ts_d t / 10), (ts_d t mod 10).
  split; [repeat (constructor; [assumption|]); constructor|].
  split; [unfold strftime_date; rewrite E4, Em, Ed; reflexivity|].
  rewrite Av, Bv, Cv. lia.
Qed.

Lemma shooting_date_format_witness :
  exists y1 y2 y3 y4 m1 m2 d1 d2,
    Forall (fun k => k < 10) [y1; y2; y3; y4; m1; m2; d1; d2] /\
    py "2023-10-15" = map digit_char [y1; y2; y3; y4] ++ "-"%char :: map digit_char [m1; m2] ++
        "-"%char :: map digit_char [d1; d2] /\
    1 <= 1000 * y1 + 100 * y2 + 10 * y3 + y4 /\ 1 <= 10 * m1 + m2 <= 12 /\
    1 <= 10 * d1 + d2 <= days_in_month (1000 * y1 + 100 * y2 + 10 * y3 + y4) (10 * m1 + m2).
Proof.
  apply (shooting_date_format (ImgOk 640 480 (ExifDict [(306%Z, VStr (py "2023:10:15 14:30:25"))]))
           (mkst [] [] [] []) (py "2023-10-15") (mkst [] [] [] [])).
  vm_compute. reflexivity.
Defined.

(** ** [get_shooting_date] reads only the three timestamp tags *)

Lemma tag_eq_date_tag : forall id name,
  In name [py "DateTime"; py "DateTimeOriginal"; py "DateTimeDigitized"] ->
  tag_eq (tag_of id) name = true -> is_date_tag id = true.
Proof.
  intros id name Hn Ht. unfold is_date_tag. apply existsb_exists. exists name. split; assumption.
Qed.

Lemma scan_tag_filter_date : forall name d,
  In name [py "DateTime"; py "DateTimeOriginal"; py "DateTimeDigitized"] ->
  scan_tag name d = scan_tag name (filter (fun '(id, _) => is_date_tag id) d).
Proof.
  intros name d Hn. induction d as [|[id v] d IH]; [reflexivity|].
  cbn [filter scan_tag]. destruct (is_date_tag id) eqn:Ed.
  - cbn [scan_tag]. destruct (tag_eq (tag_of id) name); [|exact IH].
    destruct (strptime_ts v) as [[]|t]; try reflexivity. exact IH.
  - destruct (tag_eq (tag_of id) name) eqn:Et; [|exact IH].
    rewrite (tag_eq_date_tag id name Hn Et) in Ed. discriminate.
Qed.

(** [X2] The entries of the EXIF dictionary other than [DateTime],
    [DateTimeOriginal] and [DateTimeDigitized] (other tags and unnamed ids,
    whatever their values) have no effect on [get_shooting_date]: neither
    on its result nor on what it prints. *)
Theorem shooting_date_ignores_other_tags : forall w h d s,
  get_shooting_date (ImgOk w h (ExifDict d)) s
  = get_shooting_date (ImgOk w h (ExifDict (filter (fun '(id, _) => is_date_tag id) d))) s.
Proof.
  intros w h d s.
  assert (E : scan_exif d = scan_exif (filter (fun '(id, _) => is_date_tag id) d)).
  { cbv [scan_exif date_tags fold_left].
    rewrite <- (scan_tag_filter_date (py "DateTime")), <- (scan_tag_filter_date (py "DateTimeOriginal")),
            <- (scan_tag_filter_date (py "DateTimeDigitized")) by (simpl; tauto).
    reflexivity. }
  cbn [get_shooting_date]. rewrite E. reflexivity.
Qed.

(** ** Centring and opacity *)

(** [X3] With [center], the text is centred to the pixel: the free space on
    the right (bottom) is the free space on the left (top), or one pixel
    more when the difference of sizes is odd; also when the text is larger
    than the image. *)
Theorem center_position_balanced : forall width height text_width text_height,
  let '(x, y) := watermark_position (py "center") width height text_width text_height in
  (0 <= (width - text_width - x) - x <= 1 /\ 0 <= (height - text_height - y) - y <= 1)%Z.
Proof.
  intros w h tw th. unfold watermark_position. cbn -[Z.div Z.sub].
  pose proof (Z.div_mod (w - tw) 2 ltac:(lia)). pose proof (Z.mod_pos_bound (w - tw) 2 ltac:(lia)).
  pose proof (Z.div_mod (h - th) 2 ltac:(lia)). pose proof (Z.mod_pos_bound (h - th) 2 ltac:(lia)).
  lia.
Qed.

(** [X4] For an opacity in [0, 1] the alpha of the text colour,
    [int(255 * opacity)], is in 0-255; there is no check outside it. *)
Theorem alpha_of_range : forall opacity, (0 <= opacity)%Q -> (opacity <= 1)%Q ->
  (0 <= alpha_of opacity <= 255)%Z.
Proof.
  intros [n d] H0 H1. unfold Qle in H0, H1. cbn [Qnum Qden] in *. unfold alpha_of. cbn [Qnum Qden].
  rewrite Z.quot_div_nonneg by lia. split.
  - apply Z.div_pos; lia.
  - apply Z.div_le_upper_bound; lia.
Qed.

Lemma alpha_of_range_witness : (0 <= 4 # 5)%Q /\ (4 # 5 <= 1)%Q /\ (0 <= alpha_of (4 # 5) <= 255)%Z.
Proof.
  assert (H0 : (0 <= 4 # 5)%Q) by (unfold Qle; simpl; lia).
  assert (H1 : (4 # 5 <= 1)%Q) by (unfold Qle; simpl; lia).
  split; [exact H0|split; [exact H1|apply (alpha_of_range (4 # 5) H0 H1)]].
Defined.

(** ** More of [parse_color] *)

Lemma lstrip_hash_repeat : forall k l, lstrip_hash (repeat "#"%char k ++ l) = lstrip_hash l.
Proof. induction k as [|k IH]; intros l; [reflexivity|]. cbn [repeat app lstrip_hash]. apply IH. Qed.

(** [X5] Any number of leading [#] is stripped, and whatever follows the
    first six hex digits is ignored: [##FF8000zz] is orange. *)
Theorem parse_color_hex_lenient : forall k rest h1 h2 h3 h4 h5 h6 v1 v2 v3 v4 v5 v6,
  1 <= k ->
  hexval h1 = Some v1 -> hexval h2 = Some v2 -> hexval h3 = Some v3 ->
  hexval h4 = Some v4 -> hexval h5 = Some v5 -> hexval h6 = Some v6 ->
  parse_color (repeat "#"%char k ++ [h1; h2; h3; h4; h5; h6] ++ rest)
  = [v1 * 16 + v2; v3 * 16 + v4; v5 * 16 + v6]%Z.
Proof.
  intros k rest h1 h2 h3 h4 h5 h6 v1 v2 v3 v4 v5 v6 Hk H1 H2 H3 H4 H5 H6.
  unfold parse_color.
  replace (startswith (repeat "#"%char k ++ [h1; h2; h3; h4; h5; h6] ++ rest) (py "#")) with true.
  2:{ symmetry. apply startswith_iff. destruct k as [|k]; [lia|].
      exists (repeat "#"%char k ++ [h1; h2; h3; h4; h5; h6] ++ rest). reflexivity. }
  rewrite lstrip_hash_repeat. cbn [app]. rewrite (lstrip_hash_hex h1 _ v1 H1).
  unfold slice2. cbn [skipn firstn map_all].
  rewrite (py_int16_pair h1 h2 v1 v2 H1 H2), (py_int16_pair h3 h4 v3 v4 H3 H4),
          (py_int16_pair h5 h6 v5 v6 H5 H6).
  reflexivity.
Qed.

Lemma parse_color_hex_lenient_witness :
  1 <= 2 /\ parse_color (py "##FF8000zz") = [255; 128; 0]%Z.
Proof.
  split; [lia|].
  apply (parse_color_hex_lenient 2 (py "zz") "F"%char "F"%char "8"%char "0"%char "0"%char "0"%char
           15 15 8 0 0 0)%Z; first [lia | reflexivity].
Defined.

Lemma space_hexval : forall c, int_space c = true -> hexval c = None.
Proof.
  intros c H. destruct c as [[] [] [] [] [] [] [] []]; try reflexivity.
  all: vm_compute in H; discriminate.
Qed.

Lemma space_neq : forall c x, int_space c = true -> int_space x = false -> ascii_eqb c x = false.
Proof.
  intros c x Hc Hx. destruct (ascii_eqb c x) eqn:E; [|reflexivity].
  apply ascii_eqb_true in E. subst. congruence.
Qed.

Lemma lstrip_space_spaces : forall a x, forallb int_space a = true -> lstrip_space (a ++ x) = lstrip_space x.
Proof.
  induction a as [|c a IH]; intros x H; [reflexivity|].
  cbn [forallb] in H. apply andb_true_iff in H as [H1 H2].
  cbn [app lstrip_space]. rewrite H1. apply IH, H2.
Qed.

Lemma py_int_lstrip : forall b s s', lstrip_space s = lstrip_space s' -> py_int b s = py_int b s'.
Proof. intros b s s' H. unfold py_int. rewrite H. reflexivity. Qed.

Lemma digits_tail_spaces : forall base b acc, forallb int_space b = true -> digits_tail base b acc = Some acc.
Proof.
  intros base [|c r] acc H; [reflexivity|].
  cbn [forallb] in H. apply andb_true_iff in H as [H1 H2].
  cbn [digits_tail]. unfold digit_of. rewrite (space_hexval c H1).
  rewrite (space_neq c "_" H1 eq_refl). cbn [forallb]. rewrite H1, H2. reflexivity.
Qed.

Lemma digits_tail_digits_app : forall ds b acc, Forall (fun d => d < 10) ds -> forallb int_space b = true ->
  digits_tail 10 (map digit_char ds ++ b) acc = Some (fold_left gZ ds acc).
Proof.
  induction ds as [|d ds IH]; intros b acc H Hb; [apply digits_tail_spaces, Hb|].
  inversion H as [|? ? Hd Hds]; subst.
  cbn [map app digits_tail fold_left].
  rewrite digit_of_digit_char by exact Hd. apply IH; assumption.
Qed.

(** [int(a + str(z) + b)] is [z] for whitespace [a] and [b]. *)
Lemma py_int10_repr_padded : forall a z b, forallb int_space a = true -> forallb int_space b = true ->
  py_int 10 (a ++ z_repr z ++ b) = Some z.
Proof.
  intros a z b Ha Hb. unfold z_repr. destruct (z <? 0)%Z eqn:E.
  - destruct (ndigits_shape (Z.to_nat (- z))) as (d & ds & Hn & Hd & Hds & Hv).
    rewrite Hn. cbn [map app].
    rewrite (py_int_lstrip 10 _ ("-"%char :: digit_char d :: map digit_char ds ++ b))
      by (rewrite lstrip_space_spaces by exact Ha; reflexivity).
    rewrite py_int10_neg_digit_head by exact Hd.
    rewrite digits_tail_digits_app by assumption. simpl. rewrite Hv. f_equal. lia.
  - destruct (ndigits_shape (Z.to_nat z)) as (d & ds & Hn & Hd & Hds & Hv).
    rewrite Hn. cbn [map app].
    rewrite (py_int_lstrip 10 _ (digit_char d :: map digit_char ds ++ b)).
    + rewrite py_int10_digit_head by exact Hd.
      rewrite digits_tail_digits_app by assumption. rewrite Hv. f_equal. lia.
    + rewrite lstrip_space_spaces by exact Ha. cbn [lstrip_space].
      rewrite int_space_digit_char by exact Hd. reflexivity.
Qed.

Lemma existsb_comma_spaces : forall a, forallb int_space a = true -> existsb (ascii_eqb ",") a = false.
Proof.
  induction a as [|c a IH]; intros H; [reflexivity|].
  cbn [forallb] in H. apply andb_true_iff in H as [H1 H2]. cbn [existsb].
  destruct (ascii_eqb "," c) eqn:E.
  - apply ascii_eqb_true in E. subst. discriminate.
  - apply IH, H2.
Qed.

(** [X6] The pieces of a comma colour may carry whitespace around the
    numbers, as [int] strips it: [" 255, 0 ,0"] is [(255, 0, 0)]. *)
Theorem parse_color_comma_whitespace : forall l,
  2 <= List.length l ->
  Forall (fun '(a, _, b) => forallb int_space a && forallb int_space b = true) l ->
  parse_color (join_comma (map padded_piece l)) = map (fun '(_, z, _) => z) l.
Proof.
  intros l Hlen Hsp.
  assert (Hpiece : Forall (fun p => existsb (ascii_eqb ",") p = false) (map padded_piece l)).
  { apply Forall_forall. intros p Hp. apply in_map_iff in Hp as ([[a z] b] & <- & Hin).
    rewrite Forall_forall in Hsp. specialize (Hsp _ Hin). apply andb_true_iff in Hsp as [Ha Hb].
    unfold padded_piece. rewrite !existsb_app, (existsb_comma_spaces a Ha), (existsb_comma_spaces b Hb).
    destruct (z_repr_shape z) as [Hz _]. rewrite Hz. reflexivity. }
  destruct l as [|[[a1 z1] b1] [|p2 l]]; simpl in Hlen; try lia.
  inversion Hsp as [|? ? H1 _]; subst. apply andb_true_iff in H1 as [Ha1 Hb1].
  assert (Hs : startswith (join_comma (map padded_piece ((a1, z1, b1) :: p2 :: l))) (py "#") = false).
  { change (join_comma (map padded_piece ((a1, z1, b1) :: p2 :: l)))
      with ((a1 ++ z_repr z1 ++ b1) ++ ","%char :: join_comma (map padded_piece (p2 :: l))).
    destruct a1 as [|c a1].
    - destruct (z_repr_shape z1) as [_ (c & r & Ez & Ec)]. rewrite Ez.
      cbn [app py list_ascii_of_string startswith]. rewrite Ec. reflexivity.
    - cbn [forallb] in Ha1. apply andb_true_iff in Ha1 as [Hc _].
      cbn [app py list_ascii_of_string startswith].
      destruct (ascii_eqb "#" c) eqn:E; [|reflexivity].
      apply ascii_eqb_true in E. subst. discriminate Hc. }
  unfold parse_color. rewrite Hs.
  change (map padded_piece ((a1, z1, b1) :: p2 :: l))
    with (padded_piece (a1, z1, b1) :: padded_piece p2 :: map padded_piece l).
  rewrite join_comma_has_comma.
  change (padded_piece (a1, z1, b1) :: padded_piece p2 :: map padded_piece l)
    with (map padded_piece ((a1, z1, b1) :: p2 :: l)).
  rewrite split_comma_join by (discriminate || exact Hpiece).
  assert (Hall : forall l', Forall (fun '(a, _, b) => forallb int_space a && forallb int_space b = true) l' ->
            map_all (py_int 10) (map padded_piece l') = Some (map (fun '(_, z, _) => z) l')).
  { induction l' as [|[[a z] b] l' IH]; intros Hf; [reflexivity|].
    inversion Hf as [|? ? Hp Hf']; subst. apply andb_true_iff in Hp as [Ha Hb].
    cbn [map map_all padded_piece]. rewrite (py_int10_repr_padded a z b Ha Hb), (IH Hf'). reflexivity. }
  rewrite (Hall _ Hsp). reflexivity.
Qed.

Lemma parse_color_comma_whitespace_witness :
  parse_color (py " 255, 0 ,0") = [255; 0; 0]%Z.
Proof.
  apply (parse_color_comma_whitespace [(py " ", 255%Z, py ""); (py " ", 0%Z, py " "); (py "", 0%Z, py "")]).
  - simpl. lia.
  - repeat constructor.
Defined.

Lemma split_comma_aux_length : forall s cur,
  List.length (split_comma_aux s cur) = S (List.length (filter (ascii_eqb ",") s)).
Proof.
  induction s as [|c s IH]; intros cur; [reflexivity|].
  cbn [split_comma_aux filter]. replace (ascii_eqb "," c) with (ascii_eqb c ",").
  - destruct (ascii_eqb c ","); cbn [List.length]; rewrite IH; reflexivity.
  - destruct (ascii_eqb c ",") eqn:E1, (ascii_eqb "," c) eqn:E2; try reflexivity.
    + apply ascii_eqb_true in E1. subst. discriminate.
    + apply ascii_eqb_true in E2. subst. discriminate.
Qed.

Lemma map_all_length : forall f l r, map_all f l = Some r -> List.length r = List.length l.
Proof.
  intros f l. induction l as [|x l IH]; intros r H; [injection H as <-; reflexivity|].
  cbn [map_all] in H. destruct (f x), (map_all f l) eqn:E; try discriminate.
  injection H as <-. cbn [List.length]. rewrite (IH l0 eq_refl). reflexivity.
Qed.

Lemma map_all_Forall2 : forall (f : pystr -> option Z) l vs,
  Forall2 (fun p v => f p = Some v) l vs -> map_all f l = Some vs.
Proof.
  intros f l vs H. induction H as [|x v l vs Hx _ IH]; [reflexivity|].
  cbn [map_all]. rewrite Hx, IH. reflexivity.
Qed.

(** [X7] A colour string without a leading [#] and with a comma: when every
    comma-separated piece is an integer for [int], the result is exactly
    those integers, one per piece (one more than the commas, so at least
    two); when one piece is not, the result is white. *)
Theorem parse_color_comma_arity : forall s,
  startswith s (py "#") = false -> existsb (ascii_eqb ",") s = true ->
  (forall vs, Forall2 (fun p v => py_int 10 p = Some v) (split_comma s) vs ->
     parse_color s = vs /\ List.length vs = S (List.length (filter (ascii_eqb ",") s))) /\
  (forall p, In p (split_comma s) -> py_int 10 p = None -> parse_color s = white).
Proof.
  intros s Hs Hc. unfold parse_color. rewrite Hs, Hc. split.
  - intros vs Hvs. rewrite (map_all_Forall2 _ _ _ Hvs). split; [reflexivity|].
    rewrite <- (Forall2_length Hvs). apply split_comma_aux_length.
  - intros p Hp Hn. rewrite (map_all_fails _ _ p Hp Hn). reflexivity.
Qed.

Lemma parse_color_comma_arity_witness :
  parse_color (py "1,2,3,4") = [1; 2; 3; 4]%Z /\ List.length [1; 2; 3; 4] = 4 /\
  parse_color (py "1,x") = white.
Proof.
  destruct (parse_color_comma_arity (py "1,2,3,4") eq_refl eq_refl) as [H _].
  destruct (parse_color_comma_arity (py "1,x") eq_refl eq_refl) as [_ H'].
  split; [apply (H [1; 2; 3; 4]%Z); vm_compute; repeat constructor|].
  split; [reflexivity|].
  apply (H' (py "x")); [vm_compute; right; left; reflexivity|vm_compute; reflexivity].
Defined.

(** ** The names [main] derives from the input path *)

Lemma last_dot_none : forall s, last_dot s = None -> ~ In "."%char s.
Proof.
  induction s as [|c s IH]; intros H Hin; [destruct Hin|].
  cbn [last_dot] in H. destruct (last_dot s); [discriminate|].
  destruct Hin as [->|Hin]; [rewrite ascii_eqb_refl in H; discriminate|exact (IH eq_refl Hin)].
Qed.

Lemma last_dot_spec : forall s i, last_dot s = Some i ->
  exists a b, s = a ++ "."%char :: b /\ List.length a = i /\ ~ In "."%char b.
Proof.
  induction s as [|c s IH]; intros i H; [discriminate|].
  cbn [last_dot] in H. destruct (last_dot s) as [j|] eqn:E.
  - injection H as <-. destruct (IH j eq_refl) as (a & b & -> & Hl & Hn).
    exists (c :: a), b. split; [reflexivity|]. split; [simpl; lia|exact Hn].
  - destruct (ascii_eqb c ".") eqn:Ec; [|discriminate]. injection H as <-.
    apply ascii_eqb_true in Ec. subst c. exists [], s. split; [reflexivity|].
    split; [reflexivity|apply last_dot_none, E].
Qed.

(** [X8] [Path.stem] and [Path.suffix], as [main] uses them, split the file
    name: [stem + suffix == name]; the suffix is empty or a dot followed by
    at least one character and no other dot, and then the stem is not
    empty ([.bashrc] and [photo.] have no suffix). *)
Theorem stem_suffix_split : forall name,
  stem name ++ suffix name = name /\
  (suffix name = [] \/
   exists r, suffix name = "."%char :: r /\ r <> [] /\ ~ In "."%char r /\ stem name <> []).
Proof.
  intros name. unfold stem, suffix. destruct (last_dot name) as [i|] eqn:E.
  - destruct ((0 <? i) && (i <? List.length name - 1)) eqn:C.
    + apply andb_true_iff in C as [C1 C2]. apply Nat.ltb_lt in C1, C2.
      split; [apply firstn_skipn|right].
      destruct (last_dot_spec name i E) as (a & b & -> & Hl & Hn).
      rewrite length_app in C2. cbn [List.length] in C2.
      rewrite skipn_app, firstn_app, <- Hl, Nat.sub_diag, skipn_all, firstn_all, firstn_O, app_nil_r.
      cbn [skipn app]. exists b. split; [reflexivity|]. split.
      * destruct b; [simpl in C2; lia|discriminate].
      * split; [exact Hn|]. destruct a; [simpl in Hl; lia|discriminate].
    + split; [apply app_nil_r|left; reflexivity].
  - split; [apply app_nil_r|left; reflexivity].
Qed.

Lemma basename_rev_app : forall x r acc, ~ In "/"%char x ->
  basename_rev (x ++ r) acc = basename_rev r (rev x ++ acc).
Proof.
  induction x as [|c x IH]; intros r acc H; [reflexivity|].
  cbn [app basename_rev]. destruct (ascii_eqb c "/") eqn:E.
  - apply ascii_eqb_true in E. subst. exfalso. apply H. left. reflexivity.
  - rewrite IH by (intro Hin; apply H; right; exact Hin). cbn [rev]. rewrite <- app_assoc. reflexivity.
Qed.

(** [X9] The name [os.path.basename] gives for [directory / name], the
    path of an output file and what the messages print, is [name] when the
    name is one path component: not empty, not [.], and without [/]. *)
Theorem basename_join : forall dir name,
  name <> [] -> name <> py "." -> ~ In "/"%char name -> basename (join dir name) = name.
Proof.
  intros dir name _ _ H. unfold basename, join. rewrite !rev_app_distr. cbn [rev app].
  rewrite <- app_assoc. rewrite basename_rev_app by (rewrite <- in_rev; exact H).
  cbn [app basename_rev ascii_eqb]. rewrite ascii_eqb_refl. rewrite rev_involutive, app_nil_r. reflexivity.
Qed.

Lemma basename_join_witness : ~ In "/"%char (py "IMG_1.jpg") /\
  basename (join (py "/photos/trip_watermark") (py "IMG_1.jpg")) = py "IMG_1.jpg".
Proof.
  assert (H : ~ In "/"%char (py "IMG_1.jpg")) by (simpl; intuition discriminate).
  split; [exact H|].
  apply (basename_join (py "/photos/trip_watermark") (py "IMG_1.jpg")); [discriminate|discriminate|exact H].
Defined.

(** ** When the output directory is a file *)

(** [X10] When the output directory's path is a regular file,
    [mkdir(exist_ok=True)] raises [FileExistsError], which nothing catches:
    [main] ends with that exception, printing and changing nothing, in
    directory mode and in single-file mode for a supported file. *)
Theorem output_dir_blocked_by_file : forall textbbox order font_size color_arg position opacity s,
  (forall p listing, fs_lookup (output_dir_of p) (st_fs s) = Some KFile ->
     main textbbox order (InDir p listing) font_size color_arg position opacity s = (inl FileExistsError, s)) /\
  (forall p img, mem (str_lower (suffix (p_name p))) supported_formats = true ->
     fs_lookup (join (p_parent p) (stem (p_name p) ++ py "_watermark")) (st_fs s) = Some KFile ->
     main textbbox order (InFile p img) font_size color_arg position opacity s = (inl FileExistsError, s)).
Proof.
  intros tb order fsz ca pos op s. split.
  - intros p listing H. unfold main, process_directory. cbn [negb].
    unfold bind at 1, mkdir_exist_ok. rewrite H. reflexivity.
  - intros p img Hm H. unfold main. rewrite Hm. cbn [negb].
    unfold bind at 1, mkdir_exist_ok. rewrite H. reflexivity.
Qed.

Lemma output_dir_blocked_by_file_witness :
  main (fun _ _ => (0, 0, 10, 10)%Z) supported_formats (InDir (mkpath (py "/home") (py "trip")) [])
    36%Z (py "white") (py "bottom-right") (4 # 5) (mkst [(py "/home/trip_watermark", KFile)] [] [] [])
  = (inl FileExistsError, mkst [(py "/home/trip_watermark", KFile)] [] [] []) /\
  main (fun _ _ => (0, 0, 10, 10)%Z) supported_formats (InFile (mkpath (py "/home") (py "a.jpg")) ImgCorrupt)
    36%Z (py "white") (py "bottom-right") (4 # 5) (mkst [(py "/home/a_watermark", KFile)] [] [] [])
  = (inl FileExistsError, mkst [(py "/home/a_watermark", KFile)] [] [] []).
Proof.
  split.
  - apply (proj1 (output_dir_blocked_by_file (fun _ _ => (0, 0, 10, 10)%Z) supported_formats 36%Z
             (py "white") (py "bottom-right") (4 # 5) (mkst [(py "/home/trip_watermark", KFile)] [] [] []))).
    vm_compute. reflexivity.
  - apply (proj2 (output_dir_blocked_by_file (fun _ _ => (0, 0, 10, 10)%Z) supported_formats 36%Z
             (py "white") (py "bottom-right") (4 # 5) (mkst [(py "/home/a_watermark", KFile)] [] [] [])));
      vm_compute; reflexivity.
Defined.

(** ** Directory mode never counts a success *)

Lemma process_files_opath : forall textbbox output_dir files font_size color position opacity acc s,
  exists l s',
    process_files textbbox output_dir files font_size color position opacity acc s = (inr acc, s') /\
    st_log s' = st_log s ++ l /\ st_saved s' = st_saved s /\ st_fs s' = st_fs s.
Proof.
  intros tb out files fsz col pos op. induction files as [|[n img] files IH]; intros acc s.
  - exists [], s. rewrite app_nil_r. repeat split.
  - cbn [process_files]. unfold try_except, bind, print, ret.
    destruct (add_watermark_opath tb n img (join out n) fsz col pos op s) as (e & He & Hs & Hf).
    destruct (add_watermark_log tb n img (OPath (join out n)) fsz col pos op s) as (l1 & Hl1 & _).
    destruct (add_watermark tb n img (OPath (join out n)) fsz col pos op s) as [r s1].
    cbn [fst snd] in He, Hs, Hf, Hl1. subst r. cbn [st_fs st_log st_drawn st_saved].
    destruct (IH acc (mkst (st_fs s1) (st_log s1 ++ [MFileFailed n e]) (st_drawn s1) (st_saved s1)))
      as (l & s' & Hr & Hl & Hsv & Hfs).
    exists (l1 ++ [MFileFailed n e] ++ l), s'. rewrite Hr. cbn [st_log st_saved st_fs] in Hl, Hsv, Hfs.
    split; [reflexivity|]. split; [rewrite Hl, Hl1, <- !app_assoc; reflexivity|].
    split; [rewrite Hsv; exact Hs|rewrite Hfs; exact Hf].
Qed.

(** [X11] Because every file goes to [add_watermark] with a [Path] output
    path, a directory run over N >= 1 image files saves nothing and ends by
    reporting 0 successes out of N, then the output directory. *)
Theorem process_directory_no_success :
  forall textbbox order input_path listing font_size color position opacity s,
  fs_lookup (output_dir_of input_path) (st_fs s) <> Some KFile ->
  image_files order listing <> [] ->
  exists l s',
    process_directory textbbox order true input_path listing font_size color position opacity s = (inr tt, s') /\
    st_saved s' = st_saved s /\
    st_log s' = st_log s ++ l ++
      [MDone 0 (List.length (image_files order listing)); MOutDir (output_dir_of input_path)].
Proof.
  intros tb order ip listing fsz col pos op s Hnf Hne.
  destruct (mkdir_exist_ok_spec (output_dir_of ip) s Hnf) as (s1 & Hm & _ & Hl1 & _ & Hs1 & _).
  unfold process_directory. cbn [negb]. unfold bind at 1. rewrite Hm.
  destruct (image_files order listing) as [|f files] eqn:Ef; [congruence|].
  unfold bind, print. cbn [st_fs st_log st_drawn st_saved].
  match goal with |- context [process_files tb ?o ?fl ?a ?b ?c ?d 0 ?st] =>
    destruct (process_files_opath tb o fl a b c d 0 st) as (l & s2 & Hp & Hl & Hsv & _) end.
  rewrite Hp. cbn [st_fs st_log st_drawn st_saved] in *.
  eexists (_ :: _ :: l), _. split; [reflexivity|]. cbn [st_saved st_log].
  split; [rewrite Hsv; exact Hs1|].
  rewrite Hl, Hl1, <- !app_assoc. reflexivity.
Qed.

Lemma process_directory_no_success_witness :
  exists l s',
    process_directory (fun _ _ => (0, 0, 10, 10)%Z) supported_formats true (mkpath (py "/home") (py "trip"))
      [(py "a.jpg", ImgOk 640 480 ExifNone); (py "b.PNG", ImgCorrupt)] 36%Z white (py "center") (4 # 5)
      (mkst [] [] [] []) = (inr tt, s') /\
    st_saved s' = [] /\
    st_log s' = [] ++ l ++ [MDone 0 2; MOutDir (output_dir_of (mkpath (py "/home") (py "trip")))].
Proof.
  apply (process_directory_no_success (fun _ _ => (0, 0, 10, 10)%Z) supported_formats
           (mkpath (py "/home") (py "trip")) [(py "a.jpg", ImgOk 640 480 ExifNone); (py "b.PNG", ImgCorrupt)]
           36%Z white (py "center") (4 # 5) (mkst [] [] [] [])); vm_compute; discriminate.
Defined.

(** ** The components of a [#] colour *)

Lemma in_all_ascii : forall a, In a all_ascii.
Proof.
  intros a. unfold all_ascii. apply in_map_iff. exists (nat_of_ascii a).
  split; [apply ascii_nat_embedding|]. apply in_seq. pose proof (nat_ascii_bounded a). lia.
Qed.

Lemma hex_piece_ok_all :
  hex_piece_ok [] = true /\
  forallb (fun a => hex_piece_ok [a] && forallb (fun b => hex_piece_ok [a; b]) all_ascii) all_ascii = true.
Proof. split; vm_compute; reflexivity. Qed.

Lemma py_int16_short : forall s v, List.length s <= 2 -> py_int 16 s = Some v -> (-15 <= v <= 255)%Z.
Proof.
  intros s v Hl Hv.
  assert (Hok : hex_piece_ok s = true).
  { destruct hex_piece_ok_all as [H0 H]. rewrite forallb_forall in H.
    destruct s as [|a [|b [|? ?]]]; [exact H0| | |simpl in Hl; lia].
    - specialize (H a (in_all_ascii a)). apply andb_true_iff in H as [H _]. exact H.
    - specialize (H a (in_all_ascii a)). apply andb_true_iff in H as [_ H].
      rewrite forallb_forall in H. exact (H b (in_all_ascii b)). }
  unfold hex_piece_ok in Hok. rewrite Hv in Hok. apply andb_true_iff in Hok as [H1 H2].
  apply Z.leb_le in H1, H2. lia.
Qed.

Lemma length_slice2 : forall s i, List.length (slice2 s i) <= 2.
Proof. intros s i. unfold slice2. rewrite length_firstn. lia. Qed.

(** [X12] A colour starting with [#] always gives three components, each
    between -15 and 255: [int(s[i:i+2], 16)] also takes a sign or blank
    and one digit, so [#-f0000] is [(-15, 0, 0)]. *)
Theorem parse_color_hex_range : forall s,
  startswith s (py "#") = true ->
  List.length (parse_color s) = 3 /\ Forall (fun v => (-15 <= v <= 255)%Z) (parse_color s).
Proof.
  intros s Hs. unfold parse_color. rewrite Hs.
  destruct (map_all (py_int 16) _) as [t|] eqn:E.
  - cbn [map_all] in E.
    destruct (py_int 16 (slice2 (lstrip_hash s) 0)) as [v1|] eqn:E1; [|discriminate].
    destruct (py_int 16 (slice2 (lstrip_hash s) 2)) as [v2|] eqn:E2; [|discriminate].
    destruct (py_int 16 (slice2 (lstrip_hash s) 4)) as [v3|] eqn:E3; [|discriminate].
    injection E as <-. split; [reflexivity|].
    repeat constructor; eapply py_int16_short; (apply length_slice2 || eassumption).
  - split; [reflexivity|]. unfold white. repeat constructor; lia.
Qed.

Lemma parse_color_hex_range_witness :
  parse_color (py "#-f0000") = [-15; 0; 0]%Z /\
  List.length (parse_color (py "#-f0000")) = 3 /\
  Forall (fun v => (-15 <= v <= 255)%Z) (parse_color (py "#-f0000")).
Proof.
  split; [vm_compute; reflexivity|]. apply (parse_color_hex_range (py "#-f0000")). reflexivity.
Defined.

(** ** Single-file mode and [add_watermark] with a [str] path *)

(** [X13] In single-file mode, for a supported file whose output directory
    can be made, [main] catches the failure of [add_watermark] (which gets a
    [Path]): the run ends normally with the output directory present,
    nothing saved, and the failure message as the last line. *)
Theorem main_single_file_always_fails : forall textbbox order p img font_size color_arg position opacity s,
  mem (str_lower (suffix (p_name p))) supported_formats = true ->
  fs_lookup (join (p_parent p) (stem (p_name p) ++ py "_watermark")) (st_fs s) <> Some KFile ->
  exists e l s',
    main textbbox order (InFile p img) font_size color_arg position opacity s = (inr tt, s') /\
    st_saved s' = st_saved s /\
    fs_lookup (join (p_parent p) (stem (p_name p) ++ py "_watermark")) (st_fs s') = Some KDir /\
    st_log s' = st_log s ++ l ++ [MSingleFailed e].
Proof.
  intros tb order p img fsz ca pos op s Hm Hnf.
  destruct (mkdir_exist_ok_spec _ s Hnf) as (s1 & Hmk & Hk & Hl1 & _ & Hs1 & _).
  unfold main. rewrite Hm. cbn [negb]. unfold bind at 1. rewrite Hmk.
  unfold try_except, bind.
  destruct (add_watermark_opath tb (path_str p) img
              (join (join (p_parent p) (stem (p_name p) ++ py "_watermark")) (p_name p))
              fsz (parse_color ca) pos op s1) as (e & He & Hs & Hf).
  destruct (add_watermark_log tb (path_str p) img
              (OPath (join (join (p_parent p) (stem (p_name p) ++ py "_watermark")) (p_name p)))
              fsz (parse_color ca) pos op s1) as (l & Hl & _).
  destruct (add_watermark tb _ _ _ _ _ _ _ s1) as [r s2]. cbn [fst snd] in He, Hs, Hf, Hl. subst r.
  unfold print. exists e, l. eexists. split; [reflexivity|]. cbn [st_saved st_fs st_log].
  split; [rewrite Hs; exact Hs1|]. split; [rewrite Hf; exact Hk|].
  rewrite Hl, Hl1, <- app_assoc. reflexivity.
Qed.

Lemma main_single_file_always_fails_witness :
  exists e l s',
    main (fun _ _ => (0, 0, 120, 30)%Z) supported_formats
      (InFile (mkpath (py "/photos") (py "IMG_1.JPG")) (ImgOk 640 480 ExifNone))
      36%Z (py "red") (py "center") (1 # 2) (mkst [] [] [] []) = (inr tt, s') /\
    st_saved s' = [] /\
    fs_lookup (join (py "/photos") (stem (py "IMG_1.JPG") ++ py "_watermark")) (st_fs s') = Some KDir /\
    st_log s' = [] ++ l ++ [MSingleFailed e].
Proof.
  apply (main_single_file_always_fails (fun _ _ => (0, 0, 120, 30)%Z) supported_formats
           (mkpath (py "/photos") (py "IMG_1.JPG")) (ImgOk 640 480 ExifNone)
           36%Z (py "red") (py "center") (1 # 2) (mkst [] [] [] [])); vm_compute; [reflexivity|discriminate].
Defined.

(** ** [parse_color] ignores letter case *)

Ltac ascii_cases c := destruct c as [[] [] [] [] [] [] [] []].

Lemma upper_int_space : forall c, int_space (char_upper c) = int_space c.
Proof. intros c. ascii_cases c; reflexivity. Qed.

Lemma upper_hexval : forall c, hexval (char_upper c) = hexval c.
Proof. intros c. ascii_cases c; reflexivity. Qed.

Lemma upper_digit_of : forall b c, digit_of b (char_upper c) = digit_of b c.
Proof. intros b c. unfold digit_of. rewrite upper_hexval. reflexivity. Qed.

Lemma upper_eqb_underscore : forall c, ascii_eqb (char_upper c) "_" = ascii_eqb c "_".
Proof. intros c. ascii_cases c; reflexivity. Qed.

Lemma upper_eqb_comma : forall c, ascii_eqb "," (char_upper c) = ascii_eqb "," c.
Proof. intros c. ascii_cases c; reflexivity. Qed.

Lemma upper_eqb_comma' : forall c, ascii_eqb (char_upper c) "," = ascii_eqb c ",".
Proof. intros c. ascii_cases c; reflexivity. Qed.

Lemma upper_eqb_hash : forall c, ascii_eqb "#" (char_upper c) = ascii_eqb "#" c.
Proof. intros c. ascii_cases c; reflexivity. Qed.

Lemma upper_eqb_x : forall c,
  ascii_eqb (char_upper c) "x" || ascii_eqb (char_upper c) "X" = ascii_eqb c "x" || ascii_eqb c "X".
Proof. intros c. ascii_cases c; reflexivity. Qed.

Lemma lower_upper : forall c, char_lower (char_upper c) = char_lower c.
Proof. intros c. ascii_cases c; reflexivity. Qed.

Lemma forallb_space_upper : forall s, forallb int_space (str_upper s) = forallb int_space s.
Proof. induction s as [|c s IH]; [reflexivity|]. cbn [str_upper map forallb]. rewrite upper_int_space.
  fold (str_upper s). rewrite IH. reflexivity. Qed.

Lemma lstrip_space_upper : forall s, lstrip_space (str_upper s) = str_upper (lstrip_space s).
Proof.
  induction s as [|c s IH]; [reflexivity|]. unfold str_upper in *. cbn [map lstrip_space].
  rewrite upper_int_space. destruct (int_space c); [exact IH|reflexivity].
Qed.

Lemma digits_tail_upper : forall b s acc, digits_tail b (str_upper s) acc = digits_tail b s acc.
Proof.
  intros b s. remember (List.length s) as n eqn:Hn. revert s Hn.
  induction n as [n IH] using lt_wf_ind. intros [|c r] Hn acc; [reflexivity|].
  cbn [str_upper map digits_tail]. rewrite upper_digit_of.
  destruct (digit_of b c) as [d|].
  - fold (str_upper r). apply (IH (List.length r)); [simpl in Hn; lia|reflexivity].
  - rewrite upper_eqb_underscore. destruct (ascii_eqb c "_").
    + destruct r as [|c' r']; [reflexivity|]. cbn [map]. rewrite upper_digit_of.
      destruct (digit_of b c'); [|reflexivity]. fold (str_upper r').
      apply (IH (List.length r')); [simpl in Hn; lia|reflexivity].
    + change (char_upper c :: map char_upper r) with (str_upper (c :: r)).
      rewrite forallb_space_upper. reflexivity.
Qed.

Ltac up_concrete :=
  match goal with
  | |- context [char_upper (Ascii ?b0 ?b1 ?b2 ?b3 ?b4 ?b5 ?b6 ?b7)] =>
      let v := eval vm_compute in (char_upper (Ascii b0 b1 b2 b3 b4 b5 b6 b7)) in
      change (char_upper (Ascii b0 b1 b2 b3 b4 b5 b6 b7)) with v
  end.

Lemma digits_tail_map_upper : forall b s acc, digits_tail b (map char_upper s) acc = digits_tail b s acc.
Proof. exact digits_tail_upper. Qed.

Ltac solve_up :=
  repeat up_concrete; cbn iota beta;
  repeat match goal with
         | |- context [char_upper ?x :: map char_upper ?r] =>
             change (char_upper x :: map char_upper r) with (map char_upper (x :: r))
         end;
  first
  [ match goal with
    | |- match digit_of ?b ?X with _ => _ end = match digit_of ?b ?Y with _ => _ end =>
        replace (digit_of b X) with (digit_of b Y) by reflexivity;
        destruct (digit_of b Y); [rewrite digits_tail_map_upper|]; reflexivity
    end
  | reflexivity ].

(** The [0x] prefix and what follows it, after the sign. *)
Ltac solve_prefix r :=
  destruct r as [|c r]; [reflexivity|]; cbn [map]; ascii_cases c; try solve [solve_up];
  repeat up_concrete; cbn iota beta;
  destruct r as [|x r]; [reflexivity|]; cbn [map]; rewrite upper_eqb_x;
  destruct (ascii_eqb x "x" || ascii_eqb x "X");
  [ destruct r as [|y r]; [reflexivity|]; cbn [map]; ascii_cases y; try solve [solve_up];
    repeat up_concrete; cbn iota beta; destruct r as [|c r]; [reflexivity|]; cbn [map]; ascii_cases c; solve_up
  | solve_up ].

Lemma py_int_upper : forall b s, py_int b (str_upper s) = py_int b s.
Proof.
  intros b s. unfold py_int. rewrite lstrip_space_upper. generalize (lstrip_space s) as s1. intros s1.
  unfold str_upper. destruct (Z.eqb b 16).
  - destruct s1 as [|c r]; [reflexivity|]. cbn [map]. ascii_cases c; try solve [solve_up].
    + repeat up_concrete; cbn iota beta. solve_prefix r.
    + repeat up_concrete; cbn iota beta. solve_prefix r.
    + repeat up_concrete; cbn iota beta.
      destruct r as [|x r]; [reflexivity|]; cbn [map]; rewrite upper_eqb_x;
      destruct (ascii_eqb x "x" || ascii_eqb x "X");
      [ destruct r as [|y r]; [reflexivity|]; cbn [map]; ascii_cases y; try solve [solve_up];
    repeat up_concrete; cbn iota beta; destruct r as [|c r]; [reflexivity|]; cbn [map]; ascii_cases c; solve_up
      | solve_up ].
  - destruct s1 as [|c r]; [reflexivity|]. cbn [map]. ascii_cases c; try solve [solve_up];
      repeat up_concrete; cbn iota beta;
      (destruct r as [|c r]; [reflexivity|]; cbn [map]; ascii_cases c; solve_up).
Qed.

Lemma lstrip_hash_cons : forall c r, lstrip_hash (c :: r) = if ascii_eqb "#" c then lstrip_hash r else c :: r.
Proof. intros c r. ascii_cases c; reflexivity. Qed.

Lemma lstrip_hash_upper : forall s, lstrip_hash (str_upper s) = str_upper (lstrip_hash s).
Proof.
  induction s as [|c s IH]; [reflexivity|]. unfold str_upper in *. cbn [map].
  rewrite !lstrip_hash_cons, upper_eqb_hash. destruct (ascii_eqb "#" c); [exact IH|reflexivity].
Qed.

Lemma startswith_hash_upper : forall s, startswith (str_upper s) (py "#") = startswith s (py "#").
Proof. intros [|c s]; [reflexivity|]. cbn [str_upper map py list_ascii_of_string startswith].
  rewrite upper_eqb_hash. destruct s; reflexivity. Qed.

Lemma existsb_comma_upper : forall s, existsb (ascii_eqb ",") (str_upper s) = existsb (ascii_eqb ",") s.
Proof. induction s as [|c s IH]; [reflexivity|]. unfold str_upper in *. cbn [map existsb].
  rewrite upper_eqb_comma, IH. reflexivity. Qed.

Lemma split_comma_aux_upper : forall s cur,
  split_comma_aux (str_upper s) (str_upper cur) = map str_upper (split_comma_aux s cur).
Proof.
  induction s as [|c s IH]; intros cur.
  - cbn [str_upper map split_comma_aux]. unfold str_upper. rewrite map_rev. reflexivity.
  - unfold str_upper at 1. cbn [map split_comma_aux]. rewrite upper_eqb_comma'.
    destruct (ascii_eqb c ",").
    + cbn [map]. f_equal; [unfold str_upper; rewrite map_rev; reflexivity|apply (IH [])].
    + apply (IH (c :: cur)).
Qed.

Lemma map_all_py_int_upper : forall b l, map_all (py_int b) (map str_upper l) = map_all (py_int b) l.
Proof. intros b. induction l as [|x l IH]; [reflexivity|]. cbn [map map_all].
  rewrite py_int_upper, IH. reflexivity. Qed.

Lemma str_lower_upper : forall s, str_lower (str_upper s) = str_lower s.
Proof. intros s. unfold str_lower, str_upper. rewrite map_map. apply map_ext, lower_upper. Qed.

(** [X15] [parse_color] does not depend on letter case, in any of its
    forms: a name is looked up lower-cased, the hex digits and the [0x]
    prefix [int(.., 16)] reads are case-insensitive, and decimal pieces
    have no letters: [parse_color(s.upper()) == parse_color(s)] for an ASCII
    string [s] (on which [str.upper] is the ASCII upper case). *)
Theorem parse_color_case_insensitive : forall s,
  forallb (fun c => nat_of_ascii c <? 128) s = true -> parse_color (str_upper s) = parse_color s.
Proof.
  intros s _. unfold parse_color. rewrite startswith_hash_upper.
  destruct (startswith s (py "#")).
  - rewrite lstrip_hash_upper. unfold slice2, str_upper at 1 2 3.
    rewrite !skipn_map, !firstn_map.
    match goal with |- context [[map char_upper ?a; map char_upper ?b; map char_upper ?c]] =>
      change [map char_upper a; map char_upper b; map char_upper c] with (map str_upper [a; b; c]) end.
    rewrite map_all_py_int_upper. reflexivity.
  - rewrite existsb_comma_upper. destruct (existsb (ascii_eqb ",") s).
    + unfold split_comma. change (@nil ascii) with (str_upper []) at 1.
      rewrite split_comma_aux_upper, map_all_py_int_upper. reflexivity.
    + rewrite str_lower_upper. reflexivity.
Qed.

Lemma parse_color_case_insensitive_witness :
  forallb (fun c => nat_of_ascii c <? 128) (py "#ff8000") = true /\
  forallb (fun c => nat_of_ascii c <? 128) (py "Red") = true /\
  parse_color (str_upper (py "#ff8000")) = parse_color (py "#ff8000") /\
  parse_color (str_upper (py "Red")) = parse_color (py "Red").
Proof.
  split; [reflexivity|split; [reflexivity|split]].
  - apply parse_color_case_insensitive. reflexivity.
  - apply parse_color_case_insensitive. reflexivity.
Defined.

(** ** What [get_shooting_date] and the handler of [add_watermark] print *)

(** [X16] [get_shooting_date] never raises, draws, saves or touches the
    file system; it prints at most one line, an EXIF read error, and only
    when it returns [None]. *)
Theorem get_shooting_date_effects : forall img s, exists r l,
  get_shooting_date img s = (inr r, mkst (st_fs s) (st_log s ++ l) (st_drawn s) (st_saved s)) /\
  (l = [] \/ exists e, l = [MExifError e] /\ r = None).
Proof.
  intros img s. destruct img as [|w h md].
  - exists None, [MExifError OSError]. split; [reflexivity|right; eexists; split; reflexivity].
  - destruct md as [| |d].
    + exists None, [MExifError ValueError]. split; [reflexivity|right; eexists; split; reflexivity].
    + exists None, []. rewrite app_nil_r. split; [destruct s; reflexivity|left; reflexivity].
    + cbn [get_shooting_date]. destruct (scan_exif d) as [x|e|].
      * exists (Some x), []. rewrite app_nil_r. split; [destruct s; reflexivity|left; reflexivity].
      * exists None, [MExifError e]. split; [reflexivity|right; eexists; split; reflexivity].
      * exists None, []. rewrite app_nil_r. split; [destruct s; reflexivity|left; reflexivity].
Qed.

(** [X17] Whenever [add_watermark] fails, the exception it raises is the
    one its handler caught and reported: the last line printed is the
    processing error with the image's base name and that exception. *)
Theorem add_watermark_failure_reported :
  forall textbbox image_path img output_path font_size color position opacity s e,
  fst (add_watermark textbbox image_path img output_path font_size color position opacity s) = inl e ->
  exists l, st_log (snd (add_watermark textbbox image_path img output_path font_size color position opacity s))
            = l ++ [MProcError (basename image_path) e].
Proof.
  intros tb ip img out fsz col pos op s e H. unfold add_watermark, try_except in *.
  match goal with H : context [match ?m s with _ => _ end] |- _ => destruct (m s) as [[e'|u] s1] end.
  - unfold bind, print, raise in *. cbn [fst snd st_log] in *. injection H as ->.
    exists (st_log s1). reflexivity.
  - discriminate H.
Qed.

Lemma add_watermark_failure_reported_witness :
  fst (add_watermark (fun _ _ => (0, 0, 10, 10)%Z) (py "/photos/broken.png") ImgCorrupt
         (OStr (py "/out/broken.png")) 36%Z white (py "center") (4 # 5) (mkst [] [] [] [])) = inl OSError /\
  exists l, st_log (snd (add_watermark (fun _ _ => (0, 0, 10, 10)%Z) (py "/photos/broken.png") ImgCorrupt
         (OStr (py "/out/broken.png")) 36%Z white (py "center") (4 # 5) (mkst [] [] [] [])))
            = l ++ [MProcError (basename (py "/photos/broken.png")) OSError].
Proof.
  split; [reflexivity|].
  apply (add_watermark_failure_reported (fun _ _ => (0, 0, 10, 10)%Z) (py "/photos/broken.png") ImgCorrupt
           (OStr (py "/out/broken.png")) 36%Z white (py "center") (4 # 5) (mkst [] [] [] []) OSError).
  reflexivity.
Defined.
